(** * ArbanTv database setup script: a shallow embedding of
      [setup-database.js] and the properties of its schema applier.

    The script is a sequential driver: for every declared collection it
    checks that the collection exists remotely, creates the declared
    attributes, waits, and creates the declared indexes.  The remote
    service is the only source of non-determinism; it is modelled as an
    arbitrary state machine answering one request at a time.  Everything
    the script does that is visible from outside (console lines, remote
    calls, timer delays) is recorded, in order, in a trace. *)

From Stdlib Require Import ZArith String Ascii Bool.
From stdpp Require Import base list strings gmap.

Open Scope string_scope.
Open Scope Z_scope.

(** ** JavaScript values that occur in the descriptors *)

(** Numbers in the descriptors are integer literals; they are kept as [Z]. *)
Inductive jsval : Type :=
  | JUndefined
  | JNull
  | JBool (b : bool)
  | JNum (n : Z)
  | JStr (s : string).

(** ToBoolean: [undefined], [null], [false], [0] and the empty string are
    falsy, everything else is truthy. *)
Definition truthy (v : jsval) : bool :=
  match v with
  | JUndefined | JNull => false
  | JBool b => b
  | JNum n => negb (n =? 0)
  | JStr s => negb (String.eqb s "")
  end.

(** [a || b] *)
Definition js_or (a b : jsval) : jsval := if truthy a then a else b.

(** A value of [process.env]: a string, or [undefined] when the variable
    is not set. *)
Definition env_value := option string.

(** [!v] for a value of [process.env]. *)
Definition env_missing (v : env_value) : bool :=
  match v with
  | None => true
  | Some s => String.eqb s ""
  end.

(** The value inside a template literal. *)
Definition env_text (v : env_value) : string :=
  match v with
  | None => "undefined"
  | Some s => s
  end.

(** [s.includes(searchString)] *)
Fixpoint includes (s searchString : string) : bool :=
  String.prefix searchString s ||
  match s with
  | EmptyString => false
  | String _ s' => includes s' searchString
  end.

(** ** Descriptors *)

Record attribute : Type := {
  attr_key : string;
  attr_type : string;
  attr_size : jsval;
  attr_required : jsval;
  attr_min : jsval;
  attr_max : jsval;
  attr_default : jsval;
  attr_array : jsval
}.

Record index : Type := {
  index_key : string;
  index_type : string;
  index_attributes : list string;
  index_orders : option (list string);
  index_unique : jsval
}.

Record collection : Type := {
  coll_id : env_value;
  coll_name : string;
  coll_attributes : list attribute;
  coll_indexes : option (list index)
}.

(** ** Requests to the remote service, and what the script leaves behind *)

Inductive request : Type :=
  | GetCollection (db : env_value) (cid : string)
  | CreateStringAttribute (db : env_value) (cid key : string)
      (size required default array : jsval)
  | CreateIntegerAttribute (db : env_value) (cid key : string)
      (required min max default array : jsval)
  | CreateFloatAttribute (db : env_value) (cid key : string)
      (required min max default array : jsval)
  | CreateBooleanAttribute (db : env_value) (cid key : string)
      (required default array : jsval)
  | CreateDatetimeAttribute (db : env_value) (cid key : string)
      (required default array : jsval)
  | CreateIndex (db : env_value) (cid key type : string)
      (attributes orders : list string).

(** The promise of a call resolves (its value is never looked at), or is
    rejected with an [Error] whose [message] is a string. *)
Inductive response : Type :=
  | Resolved
  | Rejected (message : string).

Inductive event : Type :=
  | Log (line : string)
  | LogError (line : string)
  | Call (q : request)
  | Delay (ms : Z).

Inductive outcome (A : Type) : Type :=
  | Returned (a : A)
  | Thrown (message : string)
  | Exited (code : Z).

Arguments Returned {A} a.
Arguments Thrown {A} message.
Arguments Exited {A} code.

(** The remote service: some state, and an answer to every request. *)
Class Databases (R : Type) : Type :=
  respond : R -> request -> R * response.

(** ** The monad of the script: remote state, emitted trace, outcome *)

Record result (R A : Type) : Type := Result {
  trace : list event;
  remote : R;
  out : outcome A
}.

Arguments Result {R A} trace remote out.
Arguments trace {R A} r.
Arguments remote {R A} r.
Arguments out {R A} r.

Definition M (R A : Type) : Type := R -> result R A.

Definition ret {R A} (a : A) : M R A :=
  fun r => Result [] r (Returned a).

(** [y] with the events [t] in front of its trace. *)
Definition emit {R A} (t : list event) (y : result R A) : result R A :=
  Result (t ++ trace y) (remote y) (out y).

Definition bind {R A B} (m : M R A) (f : A -> M R B) : M R B :=
  fun r =>
    match m r with
    | Result t r' (Returned a) => emit t (f a r')
    | Result t r' (Thrown e) => Result t r' (Thrown e)
    | Result t r' (Exited c) => Result t r' (Exited c)
    end.

(** [try { m } catch (e) { h e.message }]; [process.exit] is not an
    exception and is not caught. *)
Definition try_catch {R A} (m : M R A) (h : string -> M R A) : M R A :=
  fun r =>
    match m r with
    | Result t r' (Thrown e) => emit t (h e r')
    | x => x
    end.

Declare Scope js_scope.
Delimit Scope js_scope with js.
Notation "m1 ;; m2" := (bind m1 (fun _ => m2))
  (at level 100, right associativity) : js_scope.
Open Scope js_scope.

Definition console_log {R} (line : string) : M R unit :=
  fun r => Result [Log line] r (Returned tt).

Definition console_error {R} (line : string) : M R unit :=
  fun r => Result [LogError line] r (Returned tt).

(** [await new Promise((resolve) => setTimeout(resolve, ms))] *)
Definition sleep {R} (ms : Z) : M R unit :=
  fun r => Result [Delay ms] r (Returned tt).

Definition process_exit {R A} (code : Z) : M R A :=
  fun r => Result [] r (Exited code).

(** [await databases.method(...)]: a rejected promise throws. *)
Definition await {R} `{Databases R} (q : request) : M R unit :=
  fun r =>
    let a := respond r q in
    Result [Call q] (fst a)
      match snd a with
      | Resolved => Returned tt
      | Rejected message => Thrown message
      end.

(** [for (const x of l) { body x }] *)
Fixpoint for_of {R A} (l : list A) (body : A -> M R unit) : M R unit :=
  match l with
  | [] => ret tt
  | x :: l' => body x ;; for_of l' body
  end.

(** ** The script *)

Definition nl : string := String "010"%char "".

Record process_env : Type := {
  APPWRITE_DATABASE_ID : env_value;
  CREATORS_COLLECTION_ID : env_value;
  VIDEOS_COLLECTION_ID : env_value;
  COMMENTS_COLLECTION_ID : env_value;
  TAGS_COLLECTION_ID : env_value
}.

(** A descriptor literal; [min] and [max] are never written in the source. *)
Definition attr (key type : string) (size required default array : jsval)
  : attribute :=
  {| attr_key := key; attr_type := type; attr_size := size;
     attr_required := required; attr_min := JUndefined;
     attr_max := JUndefined; attr_default := default; attr_array := array |}.

Definition idx (key type : string) (attributes : list string) (unique : jsval)
  : index :=
  {| index_key := key; index_type := type; index_attributes := attributes;
     index_orders := None; index_unique := unique |}.

Definition creators_attributes : list attribute :=
  [ attr "user_id" "string" (JNum 255) (JBool true) JUndefined JUndefined;
    attr "channel_name" "string" (JNum 256) (JBool true) JUndefined JUndefined;
    attr "handle" "string" (JNum 50) (JBool true) JUndefined JUndefined;
    attr "avatar_url" "string" (JNum 2048) (JBool false) JUndefined JUndefined;
    attr "banner_url" "string" (JNum 2048) (JBool false) JUndefined JUndefined;
    attr "bio" "string" (JNum 2000) (JBool false) JUndefined JUndefined;
    attr "subscribers" "integer" JUndefined (JBool true) (JNum 0) JUndefined;
    attr "total_views" "integer" JUndefined (JBool true) (JNum 0) JUndefined;
    attr "is_verified" "boolean" JUndefined (JBool true) (JBool false)
      JUndefined ].

Definition creators_indexes : list index :=
  [ idx "user_id_index" "key" ["user_id"] JUndefined;
    idx "handle_index" "key" ["handle"] (JBool true) ].

Definition videos_attributes : list attribute :=
  [ attr "title" "string" (JNum 256) (JBool true) JUndefined JUndefined;
    attr "description" "string" (JNum 5000) (JBool false) JUndefined
      JUndefined;
    attr "creator_id" "string" (JNum 255) (JBool true) JUndefined JUndefined;
    attr "video_file_id" "string" (JNum 255) (JBool true) JUndefined
      JUndefined;
    attr "thumbnail_url" "string" (JNum 2048) (JBool true) JUndefined
      JUndefined;
    attr "duration" "integer" JUndefined (JBool true) JUndefined JUndefined;
    attr "genre" "string" (JNum 50) (JBool true) JUndefined JUndefined;
    attr "tags" "string" (JNum 5000) (JBool false) JUndefined (JBool true);
    attr "status" "string" (JNum 20) (JBool true) (JStr "draft") JUndefined;
    attr "view_count" "integer" JUndefined (JBool true) (JNum 0) JUndefined;
    attr "like_count" "integer" JUndefined (JBool true) (JNum 0) JUndefined;
    attr "is_premium" "boolean" JUndefined (JBool true) (JBool false)
      JUndefined;
    attr "release_date" "datetime" JUndefined (JBool true) JUndefined
      JUndefined ].

Definition videos_indexes : list index :=
  [ idx "creator_index" "key" ["creator_id"] JUndefined;
    idx "status_genre_index" "key" ["status"; "genre"] JUndefined ].

Definition comments_attributes : list attribute :=
  [ attr "video_id" "string" (JNum 255) (JBool true) JUndefined JUndefined;
    attr "user_id" "string" (JNum 255) (JBool true) JUndefined JUndefined;
    attr "content" "string" (JNum 2000) (JBool true) JUndefined JUndefined;
    attr "parent_id" "string" (JNum 255) (JBool false) JUndefined JUndefined;
    attr "likes" "integer" JUndefined (JBool true) (JNum 0) JUndefined;
    attr "is_deleted" "boolean" JUndefined (JBool true) (JBool false)
      JUndefined ].

Definition comments_indexes : list index :=
  [ idx "video_index" "key" ["video_id"] JUndefined;
    idx "parent_index" "key" ["parent_id"] JUndefined ].

Definition tags_attributes : list attribute :=
  [ attr "name" "string" (JNum 50) (JBool true) JUndefined JUndefined;
    attr "count" "integer" JUndefined (JBool true) (JNum 0) JUndefined ].

Definition tags_indexes : list index :=
  [ idx "name_index" "key" ["name"] (JBool true) ].

(** The [collections] array.  [ID_unique n] is what the [n]-th call of
    [ID.unique()] returns. *)
Definition collections (env : process_env) (ID_unique : nat -> string)
  : list collection :=
  [ {| coll_id := CREATORS_COLLECTION_ID env; coll_name := ID_unique 0%nat;
       coll_attributes := creators_attributes;
       coll_indexes := Some creators_indexes |};
    {| coll_id := VIDEOS_COLLECTION_ID env; coll_name := ID_unique 1%nat;
       coll_attributes := videos_attributes;
       coll_indexes := Some videos_indexes |};
    {| coll_id := COMMENTS_COLLECTION_ID env; coll_name := ID_unique 2%nat;
       coll_attributes := comments_attributes;
       coll_indexes := Some comments_indexes |};
    {| coll_id := TAGS_COLLECTION_ID env; coll_name := ID_unique 3%nat;
       coll_attributes := tags_attributes;
       coll_indexes := Some tags_indexes |} ].

(** The [switch (attr.type)]: the request of the matching case, or [None]
    in the [default] case. *)
Definition attribute_request (db : env_value) (cid : string) (a : attribute)
  : option request :=
  if String.eqb (attr_type a) "string" then
    Some (CreateStringAttribute db cid (attr_key a) (attr_size a)
            (attr_required a) (js_or (attr_default a) JNull)
            (js_or (attr_array a) (JBool false)))
  else if String.eqb (attr_type a) "integer" then
    Some (CreateIntegerAttribute db cid (attr_key a) (attr_required a)
            (js_or (attr_min a) JNull) (js_or (attr_max a) JNull)
            (js_or (attr_default a) JNull)
            (js_or (attr_array a) (JBool false)))
  else if String.eqb (attr_type a) "double" then
    Some (CreateFloatAttribute db cid (attr_key a) (attr_required a)
            (js_or (attr_min a) JNull) (js_or (attr_max a) JNull)
            (js_or (attr_default a) JNull)
            (js_or (attr_array a) (JBool false)))
  else if String.eqb (attr_type a) "boolean" then
    Some (CreateBooleanAttribute db cid (attr_key a) (attr_required a)
            (js_or (attr_default a) JNull)
            (js_or (attr_array a) (JBool false)))
  else if String.eqb (attr_type a) "datetime" then
    Some (CreateDatetimeAttribute db cid (attr_key a) (attr_required a)
            (js_or (attr_default a) JNull)
            (js_or (attr_array a) (JBool false)))
  else None.

Definition index_request (db : env_value) (cid : string) (i : index)
  : request :=
  CreateIndex db cid (index_key i) (index_type i) (index_attributes i)
    (default [] (index_orders i)).

Definition log_attr_warn (a : attribute) : string :=
  "     [WARN] Unknown attribute type: " ++ attr_type a ++ " for " ++
  attr_key a.

Definition log_attr_ok (a : attribute) : string :=
  "     [OK] Created attribute: " ++ attr_key a ++ " (" ++ attr_type a ++
  (if truthy (attr_array a) then "[]" else "") ++ ")".

Definition log_attr_skip (a : attribute) : string :=
  "     [SKIP] Attribute " ++ attr_key a ++ " already exists, skipping...".

Definition log_attr_error (a : attribute) (message : string) : string :=
  "     [ERROR] Failed to create attribute " ++ attr_key a ++ ": " ++ message.

Definition log_index_ok (i : index) : string :=
  "     [OK] Created index: " ++ index_key i.

Definition log_index_skip (i : index) : string :=
  "     [SKIP] Index " ++ index_key i ++ " already exists, skipping...".

Definition log_index_error (i : index) (message : string) : string :=
  "     [ERROR] Failed to create index " ++ index_key i ++ ": " ++ message.

Definition log_collection (c : collection) : string :=
  nl ++ "[COLLECTION] Setting up collection: " ++ coll_name c ++ " (ID: " ++
  env_text (coll_id c) ++ ")".

Definition log_id_missing (c : collection) : string :=
  "   [ERROR] Collection ID not found for " ++ coll_name c ++
  ". Please check your .env file.".

Definition log_collection_found (c : collection) : string :=
  "   [OK] Collection '" ++ coll_name c ++ "' found".

Definition log_process (c : collection) : string :=
  "   [PROCESS] Creating attributes for " ++ coll_name c ++ "...".

Definition log_wait : string :=
  "   [WAIT] Waiting for attributes to be ready...".

Definition log_index (c : collection) : string :=
  "   [INDEX] Creating indexes for " ++ coll_name c ++ "...".

Definition log_collection_not_found (c : collection) : string :=
  "   [ERROR] Collection " ++ coll_name c ++
  " not found. Please verify collection ID: " ++ env_text (coll_id c).

Definition log_collection_error (c : collection) (message : string) : string :=
  "   [ERROR] Error setting up collection " ++ coll_name c ++ ": " ++ message.

Section Script.
Context {R : Type} `{!Databases R}.

(** The body of the attribute loop, lines 135-221. *)
Definition create_attribute (db : env_value) (cid : string) (a : attribute)
  : M R unit :=
  try_catch
    (match attribute_request db cid a with
     | Some q =>
         await q ;;
         console_log (log_attr_ok a) ;;
         sleep 100
     | None => console_log (log_attr_warn a)
     end)
    (fun message =>
       if includes message "already exists" ||
          includes message "Attribute already exists"
       then console_log (log_attr_skip a)
       else console_log (log_attr_error a message)).

(** The body of the index loop, lines 233-260. *)
Definition create_index (db : env_value) (cid : string) (i : index)
  : M R unit :=
  try_catch
    (await (index_request db cid i) ;;
     console_log (log_index_ok i) ;;
     sleep 200)
    (fun message =>
       if includes message "already exists" ||
          includes message "Index already exists"
       then console_log (log_index_skip i)
       else console_log (log_index_error i message)).

(** [if (collection.indexes && collection.indexes.length > 0) { ... }] *)
Definition create_indexes (db : env_value) (cid : string) (c : collection)
  : M R unit :=
  match coll_indexes c with
  | Some (i :: l) =>
      console_log (log_index c) ;;
      for_of (i :: l) (create_index db cid)
  | _ => ret tt
  end.

(** The body of the collection loop, lines 112-274. *)
Definition setup_collection (db : env_value) (c : collection) : M R unit :=
  console_log (log_collection c) ;;
  if env_missing (coll_id c) then console_log (log_id_missing c)
  else
    let cid := env_text (coll_id c) in
    try_catch
      (await (GetCollection db cid) ;;
       console_log (log_collection_found c) ;;
       console_log (log_process c) ;;
       for_of (coll_attributes c) (create_attribute db cid) ;;
       console_log log_wait ;;
       sleep 3000 ;;
       create_indexes db cid c)
      (fun message =>
         if includes message "not found"
         then console_log (log_collection_not_found c)
         else console_log (log_collection_error c message)).

Definition setup_collections (db : env_value) (cs : list collection)
  : M R unit :=
  for_of cs (setup_collection db).

Definition log_summary : M R unit :=
  console_log (nl ++ "[SUCCESS] Database attributes setup completed!") ;;
  console_log (nl ++ "[INFO] Summary of ArbanTv collections configured:") ;;
  console_log "  - Creators: Channel profiles, stats, and verification" ;;
  console_log "  - Videos: Video metadata, storage links, and engagement" ;;
  console_log "  - Comments: Threaded comments for videos" ;;
  console_log "  - Tags: Normalized tags for trending discovery" ;;
  console_log (nl ++ "[SUCCESS] Your ArbanTv database schema is ready!").

(** [setupDatabase] over an arbitrary list of descriptors. *)
Definition setupDatabase_with (db : env_value) (cs : list collection)
  : M R unit :=
  console_log "[START] Starting ArbanTv database attributes setup..." ;;
  try_catch
    (setup_collections db cs ;;
     log_summary)
    (fun error =>
       console_error ("[CRITICAL] Database setup failed: " ++ error) ;;
       process_exit 1).

Definition setupDatabase (env : process_env) (ID_unique : nat -> string)
  : M R unit :=
  setupDatabase_with (APPWRITE_DATABASE_ID env) (collections env ID_unique).

(** [setupDatabase().then(...).catch(...)], over an arbitrary list of
    descriptors. *)
Definition run_with (db : env_value) (cs : list collection) : M R unit :=
  try_catch
    (setupDatabase_with db cs ;;
     console_log "Setup completed successfully" ;;
     process_exit 0)
    (fun error =>
       console_error ("Setup failed: " ++ error) ;;
       process_exit 1).

(** The module entry, lines 292-302, when the file is run directly. *)
Definition main (env : process_env) (ID_unique : nat -> string) : M R unit :=
  try_catch
    (setupDatabase env ID_unique ;;
     console_log "Setup completed successfully" ;;
     process_exit 0)
    (fun error =>
       console_error ("Setup failed: " ++ error) ;;
       process_exit 1).
End Script.

(** The exit code of a finished process. *)
Definition exit_code {R A} (x : result R A) : option Z :=
  match out x with
  | Exited code => Some code
  | _ => None
  end.

(** ** Reading a trace *)

Definition call_of (e : event) : option request :=
  match e with
  | Call q => Some q
  | _ => None
  end.

Definition delay_of (e : event) : option Z :=
  match e with
  | Delay ms => Some ms
  | _ => None
  end.

(** The remote calls of a trace, in order. *)
Definition calls (t : list event) : list request := omap call_of t.

Definition delays (t : list event) : list Z := omap delay_of t.

Definition is_create_attribute (q : request) : bool :=
  match q with
  | CreateStringAttribute _ _ _ _ _ _ _
  | CreateIntegerAttribute _ _ _ _ _ _ _ _
  | CreateFloatAttribute _ _ _ _ _ _ _ _
  | CreateBooleanAttribute _ _ _ _ _ _
  | CreateDatetimeAttribute _ _ _ _ _ _ => true
  | _ => false
  end.

Definition is_create_index (q : request) : bool :=
  match q with
  | CreateIndex _ _ _ _ _ _ => true
  | _ => false
  end.

Definition attribute_calls (t : list event) : list request :=
  filter (fun q => is_create_attribute q = true) (calls t).

Definition index_calls (t : list event) : list request :=
  filter (fun q => is_create_index q = true) (calls t).

(** The collection a request is addressed to. *)
Definition request_collection (q : request) : string :=
  match q with
  | GetCollection _ cid
  | CreateStringAttribute _ cid _ _ _ _ _
  | CreateIntegerAttribute _ cid _ _ _ _ _ _
  | CreateFloatAttribute _ cid _ _ _ _ _ _
  | CreateBooleanAttribute _ cid _ _ _ _
  | CreateDatetimeAttribute _ cid _ _ _ _
  | CreateIndex _ cid _ _ _ _ => cid
  end.

Definition request_key (q : request) : string :=
  match q with
  | GetCollection _ _ => ""
  | CreateStringAttribute _ _ key _ _ _ _
  | CreateIntegerAttribute _ _ key _ _ _ _ _
  | CreateFloatAttribute _ _ key _ _ _ _ _
  | CreateBooleanAttribute _ _ key _ _ _
  | CreateDatetimeAttribute _ _ key _ _ _
  | CreateIndex _ _ key _ _ _ => key
  end.

(** The five handled kinds of the [switch]. *)
Definition handled_type (type : string) : bool :=
  String.eqb type "string" || String.eqb type "integer" ||
  String.eqb type "double" || String.eqb type "boolean" ||
  String.eqb type "datetime".

(** What the remote receives as the [default] argument of a create call. *)
Definition request_default (q : request) : option jsval :=
  match q with
  | CreateStringAttribute _ _ _ _ _ default _
  | CreateIntegerAttribute _ _ _ _ _ _ default _
  | CreateFloatAttribute _ _ _ _ _ _ default _
  | CreateBooleanAttribute _ _ _ _ default _
  | CreateDatetimeAttribute _ _ _ _ default _ => Some default
  | _ => None
  end.

(** ** Two stand-ins for the remote service *)

(** A scripted service: it answers the requests with the responses it was
    given, in order, and resolves every request once they are used up. *)
#[export] Instance scripted : Databases (list response) :=
  fun r _ =>
    match r with
    | [] => ([], Resolved)
    | a :: r' => (r', a)
    end.

(** An in-memory service: the collections that exist, and the attribute
    and index keys created so far in each.  Creating a key twice is a
    conflict. *)
Record service : Type := Service {
  svc_collections : gset string;
  svc_attributes : gset (string * string);
  svc_indexes : gset (string * string)
}.

Definition service_respond (s : service) (q : request) : service * response :=
  if is_create_attribute q then
    if decide ((request_collection q, request_key q) ∈ svc_attributes s)
    then (s, Rejected "Attribute already exists")
    else (Service (svc_collections s)
            ({[ (request_collection q, request_key q) ]} ∪ svc_attributes s)
            (svc_indexes s), Resolved)
  else if is_create_index q then
    if decide ((request_collection q, request_key q) ∈ svc_indexes s)
    then (s, Rejected "Index already exists")
    else (Service (svc_collections s) (svc_attributes s)
            ({[ (request_collection q, request_key q) ]} ∪ svc_indexes s),
          Resolved)
  else
    if decide (request_collection q ∈ svc_collections s)
    then (s, Resolved)
    else (s, Rejected "Collection not found").

#[export] Instance in_memory : Databases service := service_respond.

(** A service that resolves every request. *)
#[export] Instance obliging : Databases unit := fun r _ => (r, Resolved).

Definition test_env : process_env :=
  {| APPWRITE_DATABASE_ID := Some "arbantv";
     CREATORS_COLLECTION_ID := Some "creators";
     VIDEOS_COLLECTION_ID := Some "videos";
     COMMENTS_COLLECTION_ID := Some "comments";
     TAGS_COLLECTION_ID := Some "tags" |}.

Definition test_unique (n : nat) : string := "unique()".

Definition fresh_service : service :=
  Service {[ "creators"; "videos"; "comments"; "tags" ]} ∅ ∅.

(** The in-memory service holds the key that create request [q] asks for. *)
Definition service_has (s : service) (q : request) : bool :=
  if is_create_attribute q then
    bool_decide ((request_collection q, request_key q) ∈ svc_attributes s)
  else if is_create_index q then
    bool_decide ((request_collection q, request_key q) ∈ svc_indexes s)
  else false.

(** The in-memory service after a first run of the script. *)
Definition applied_service : service :=
  remote (main test_env test_unique fresh_service).


(** ** What one step of each loop can leave in the trace *)

Section Steps.
Context {R : Type} `{!Databases R}.
Implicit Types (r : R) (db : env_value) (cid : string).

(** The shape of one attribute step, whatever the service answers. *)
Inductive attribute_step db cid a r : result R unit -> Prop :=
  | step_unknown :
      attribute_request db cid a = None ->
      attribute_step db cid a r
        (Result [Log (log_attr_warn a)] r (Returned tt))
  | step_created q :
      attribute_request db cid a = Some q ->
      (respond r q).2 = Resolved ->
      attribute_step db cid a r
        (Result [Call q; Log (log_attr_ok a); Delay 100] (respond r q).1
           (Returned tt))
  | step_skipped q message :
      attribute_request db cid a = Some q ->
      (respond r q).2 = Rejected message ->
      includes message "already exists" = true ->
      attribute_step db cid a r
        (Result [Call q; Log (log_attr_skip a)] (respond r q).1
           (Returned tt))
  | step_failed q message :
      attribute_request db cid a = Some q ->
      (respond r q).2 = Rejected message ->
      includes message "already exists" = false ->
      attribute_step db cid a r
        (Result [Call q; Log (log_attr_error a message)] (respond r q).1
           (Returned tt)).

(** The shape of one index step. *)
Inductive index_step db cid i r : result R unit -> Prop :=
  | istep_created :
      (respond r (index_request db cid i)).2 = Resolved ->
      index_step db cid i r
        (Result
           [Call (index_request db cid i); Log (log_index_ok i); Delay 200]
           (respond r (index_request db cid i)).1 (Returned tt))
  | istep_skipped message :
      (respond r (index_request db cid i)).2 = Rejected message ->
      includes message "already exists" = true ->
      index_step db cid i r
        (Result [Call (index_request db cid i); Log (log_index_skip i)]
           (respond r (index_request db cid i)).1 (Returned tt))
  | istep_failed message :
      (respond r (index_request db cid i)).2 = Rejected message ->
      includes message "already exists" = false ->
      index_step db cid i r
        (Result
           [Call (index_request db cid i); Log (log_index_error i message)]
           (respond r (index_request db cid i)).1 (Returned tt)).

(** The traces of the collections of a run, one per descriptor, in the
    order of the descriptors. *)
Fixpoint segments db (cs : list collection) r : list (list event) :=
  match cs with
  | [] => []
  | c :: cs' =>
      trace (setup_collection db c r) ::
      segments db cs' (remote (setup_collection db c r))
  end.
End Steps.

(** The requests that the descriptors of a collection stand for. *)
Definition collection_attribute_requests (db : env_value) (c : collection)
  : list request :=
  omap (attribute_request db (env_text (coll_id c))) (coll_attributes c).

Definition collection_index_requests (db : env_value) (c : collection)
  : list request :=
  index_request db (env_text (coll_id c)) <$> default [] (coll_indexes c).

(** A rejection that the script takes for a conflict. *)
Definition is_conflict (a : response) : bool :=
  match a with
  | Resolved => false
  | Rejected message => includes message "already exists"
  end.

(** In trace [t], every create-attribute call comes before every
    create-index call. *)
Definition attributes_before_indexes (t : list event) : Prop :=
  forall (i j : nat) (qi qa : request),
    t !! i = Some (Call qi) -> is_create_index qi = true ->
    t !! j = Some (Call qa) -> is_create_attribute qa = true ->
    (j < i)%nat.

(** The same, between calls addressed to the same collection only. *)
Definition attributes_before_indexes_per_collection (t : list event) : Prop :=
  forall (i j : nat) (qi qa : request),
    t !! i = Some (Call qi) -> is_create_index qi = true ->
    t !! j = Some (Call qa) -> is_create_attribute qa = true ->
    request_collection qi = request_collection qa ->
    (j < i)%nat.

(** The identifier under which a collection is processed, when it has one. *)
Definition configured_id (c : collection) : option string :=
  if env_missing (coll_id c) then None else Some (env_text (coll_id c)).

(** A delay of [ms] comes before the next remote call of [t]. *)
Fixpoint delay_before_next_call (ms : Z) (t : list event) : bool :=
  match t with
  | [] => false
  | Delay d :: t' => (d =? ms) || delay_before_next_call ms t'
  | Call _ :: _ => false
  | _ :: t' => delay_before_next_call ms t'
  end.

(** Every create-attribute call of [t] is followed by a delay of 100 ms
    before the next remote call. *)
Fixpoint attribute_attempts_delayed (t : list event) : bool :=
  match t with
  | [] => true
  | Call q :: t' =>
      (if is_create_attribute q then delay_before_next_call 100 t' else true)
      && attribute_attempts_delayed t'
  | _ :: t' => attribute_attempts_delayed t'
  end.

(** At state [r], each request of [l] is rejected as a conflict and leaves
    the state as it is. *)
Definition conflicting {R} `{!Databases R} (r : R) (l : list request) : Prop :=
  Forall (fun q => (respond r q).1 = r /\ is_conflict (respond r q).2 = true)
    l.

(** The schema of [cs] is already applied at state [r]: for every
    collection that has an identifier, every create request of a declared
    descriptor is rejected as a conflict, and neither it nor the lookup
    changes the state. *)
Definition already_applied {R} `{!Databases R} (db : env_value)
    (cs : list collection) (r : R) : Prop :=
  Forall (fun c =>
    env_missing (coll_id c) = false ->
    (respond r (GetCollection db (env_text (coll_id c)))).1 = r /\
    conflicting r
      (collection_attribute_requests db c ++ collection_index_requests db c))
    cs.

(** The lines that report a created or a failed attribute or index. *)
Definition reports_creation_or_failure (e : event) : bool :=
  match e with
  | Log line =>
      String.prefix "     [OK] Created" line ||
      String.prefix "     [ERROR] Failed" line
  | _ => false
  end.

(** The lines that close a run that reached its end. *)
Definition summary_lines : list event :=
  [ Log (nl +:+ "[SUCCESS] Database attributes setup completed!");
    Log (nl +:+ "[INFO] Summary of ArbanTv collections configured:");
    Log "  - Creators: Channel profiles, stats, and verification";
    Log "  - Videos: Video metadata, storage links, and engagement";
    Log "  - Comments: Threaded comments for videos";
    Log "  - Tags: Normalized tags for trending discovery";
    Log (nl +:+ "[SUCCESS] Your ArbanTv database schema is ready!");
    Log "Setup completed successfully" ].

(** A trace without creation or failure reports. *)
Definition quiet (t : list event) : Prop :=
  Forall (fun e => reports_creation_or_failure e = false) t.

(** ** Further readings of requests and traces *)

(** The database a request is addressed to. *)
Definition request_db (q : request) : env_value :=
  match q with
  | GetCollection db _
  | CreateStringAttribute db _ _ _ _ _ _
  | CreateIntegerAttribute db _ _ _ _ _ _ _
  | CreateFloatAttribute db _ _ _ _ _ _ _
  | CreateBooleanAttribute db _ _ _ _ _
  | CreateDatetimeAttribute db _ _ _ _ _
  | CreateIndex db _ _ _ _ _ => db
  end.

(** The [required] argument of a create-attribute call. *)
Definition request_required (q : request) : option jsval :=
  match q with
  | CreateStringAttribute _ _ _ _ required _ _
  | CreateIntegerAttribute _ _ _ required _ _ _ _
  | CreateFloatAttribute _ _ _ required _ _ _ _
  | CreateBooleanAttribute _ _ _ required _ _
  | CreateDatetimeAttribute _ _ _ required _ _ => Some required
  | _ => None
  end.

(** The [array] argument of a create-attribute call. *)
Definition request_array (q : request) : option jsval :=
  match q with
  | CreateStringAttribute _ _ _ _ _ _ array
  | CreateIntegerAttribute _ _ _ _ _ _ _ array
  | CreateFloatAttribute _ _ _ _ _ _ _ array
  | CreateBooleanAttribute _ _ _ _ _ array
  | CreateDatetimeAttribute _ _ _ _ _ array => Some array
  | _ => None
  end.

(** The [min] and [max] arguments of a create call for a number. *)
Definition request_bounds (q : request) : list jsval :=
  match q with
  | CreateIntegerAttribute _ _ _ _ min max _ _
  | CreateFloatAttribute _ _ _ _ min max _ _ => [min; max]
  | _ => []
  end.

(** The lookups among the remote calls of a trace, in order. *)
Definition is_lookup (q : request) : bool :=
  match q with
  | GetCollection _ _ => true
  | _ => false
  end.

Definition lookup_calls (t : list event) : list request :=
  filter (fun q => is_lookup q = true) (calls t).

(** The time a trace spends in its delays, in milliseconds. *)
Definition total_delay (t : list event) : Z := foldr Z.add 0 (delays t).

(** The longest a collection can make the script wait: a short delay for
    each attribute, the wait for the attributes, a delay for each index. *)
Definition delay_budget (c : collection) : Z :=
  100 * Z.of_nat (length (coll_attributes c)) + 3000 +
  200 * Z.of_nat (length (default [] (coll_indexes c))).

(** What the script waits for a collection all of whose calls succeed. *)
Definition delay_when_created (db : env_value) (c : collection) : Z :=
  100 * Z.of_nat (length (collection_attribute_requests db c)) + 3000 +
  200 * Z.of_nat (length (collection_index_requests db c)).

(** The line that reports the outcome of a remote call. *)
Inductive report_of : request -> string -> Prop :=
  | report_attr_ok db cid a q :
      attribute_request db cid a = Some q -> report_of q (log_attr_ok a)
  | report_attr_skip db cid a q :
      attribute_request db cid a = Some q -> report_of q (log_attr_skip a)
  | report_attr_error db cid a q message :
      attribute_request db cid a = Some q ->
      report_of q (log_attr_error a message)
  | report_index_ok db cid i :
      report_of (index_request db cid i) (log_index_ok i)
  | report_index_skip db cid i :
      report_of (index_request db cid i) (log_index_skip i)
  | report_index_error db cid i message :
      report_of (index_request db cid i) (log_index_error i message)
  | report_found db c :
      report_of (GetCollection db (env_text (coll_id c)))
        (log_collection_found c)
  | report_not_found db c :
      report_of (GetCollection db (env_text (coll_id c)))
        (log_collection_not_found c)
  | report_collection_error db c message :
      report_of (GetCollection db (env_text (coll_id c)))
        (log_collection_error c message).

(** A trace made of console lines, delays, and remote calls each followed
    at once by the line that reports it; nothing goes to [console.error]. *)
Inductive reported : list event -> Prop :=
  | reported_nil : reported []
  | reported_log line t : reported t -> reported (Log line :: t)
  | reported_delay ms t : reported t -> reported (Delay ms :: t)
  | reported_call q line t :
      report_of q line -> reported t -> reported (Call q :: Log line :: t).

(** The descriptors of a well-formed collection: keys are unique, every
    index refers to declared attributes only, and every attribute has a
    handled kind. *)
Definition well_formed (c : collection) : Prop :=
  NoDup (attr_key <$> coll_attributes c) /\
  NoDup (index_key <$> default [] (coll_indexes c)) /\
  Forall (fun i =>
    Forall (fun k => k ∈ attr_key <$> coll_attributes c) (index_attributes i))
    (default [] (coll_indexes c)) /\
  Forall (fun a => handled_type (attr_type a) = true) (coll_attributes c).

(** ** The answers of the service along a run *)

Definition is_resolved (a : response) : bool :=
  match a with
  | Resolved => true
  | Rejected _ => false
  end.

Section Answers.
Context {R : Type} `{!Databases R}.

(** The state of the service once it has answered the requests [l], one
    after the other, from state [r]. *)
Fixpoint after (r : R) (l : list request) : R :=
  match l with
  | [] => r
  | q :: l' => after (respond r q).1 l'
  end.

(** The answers it gave to them. *)
Fixpoint answers (r : R) (l : list request) : list response :=
  match l with
  | [] => []
  | q :: l' => (respond r q).2 :: answers (respond r q).1 l'
  end.

(** Computation [m] changes the service through its recorded calls only. *)
Definition tracks {A} (m : M R A) : Prop :=
  forall r, after r (calls (trace (m r))) = remote (m r).
End Answers.

(** The line that reports answer [a] of the service to request [q]: the
    line of the [try] block when the call resolved, the line chosen by the
    [catch] handler from the message when it was rejected. *)
Inductive outcome_line : request -> response -> string -> Prop :=
  | outcome_attr_created db cid a q :
      attribute_request db cid a = Some q ->
      outcome_line q Resolved (log_attr_ok a)
  | outcome_attr_rejected db cid a q message :
      attribute_request db cid a = Some q ->
      outcome_line q (Rejected message)
        (if includes message "already exists" then log_attr_skip a
         else log_attr_error a message)
  | outcome_index_created db cid i :
      outcome_line (index_request db cid i) Resolved (log_index_ok i)
  | outcome_index_rejected db cid i message :
      outcome_line (index_request db cid i) (Rejected message)
        (if includes message "already exists" then log_index_skip i
         else log_index_error i message)
  | outcome_found db c :
      outcome_line (GetCollection db (env_text (coll_id c))) Resolved
        (log_collection_found c)
  | outcome_lookup_rejected db c message :
      outcome_line (GetCollection db (env_text (coll_id c)))
        (Rejected message)
        (if includes message "not found" then log_collection_not_found c
         else log_collection_error c message).

(** A trace that, started at state [r] of the service, is made of console
    lines, delays, and remote calls each followed at once by the line that
    reports the answer the service gave to it. *)
Inductive answered {R : Type} `{!Databases R} : R -> list event -> Prop :=
  | answered_nil r : answered r []
  | answered_log r line t : answered r t -> answered r (Log line :: t)
  | answered_delay r ms t : answered r t -> answered r (Delay ms :: t)
  | answered_call r q line t :
      outcome_line q (respond r q).2 line ->
      answered (respond r q).1 t ->
      answered r (Call q :: Log line :: t).

(** The strings that [console.log] receives as its first of two arguments
    hold no format specifier: the name and the keys of the collection
    contain no percent sign. *)
Definition plain (c : collection) : bool :=
  negb (includes (coll_name c) "%") &&
  forallb (fun a => negb (includes (attr_key a) "%")) (coll_attributes c) &&
  forallb (fun i => negb (includes (index_key i) "%"))
    (default [] (coll_indexes c)).

(** * Properties *)

(** ** Strings *)

Lemma prefix_includes (s q : string) :
  String.prefix q s = true -> includes s q = true.
Proof. intros H. destruct s; cbn [includes]; rewrite H; reflexivity. Qed.

Lemma prefix_app_includes (p q s : string) :
  String.prefix (p ++ q) s = true -> includes s q = true.
Proof.
  revert s; induction p as [|c p IH]; intros s Hp.
  - by apply prefix_includes.
  - destruct s as [|c' s]; simpl in Hp; [discriminate|].
    destruct (ascii_dec c c'); [|discriminate].
    cbn [includes]. rewrite (IH _ Hp). apply orb_true_r.
Qed.

Lemma includes_app_r (p q s : string) :
  includes s (p ++ q) = true -> includes s q = true.
Proof.
  induction s as [|c s IH]; cbn [includes]; intros H;
    apply orb_true_iff in H as [H|H]; try discriminate.
  - exact (prefix_app_includes _ _ _ H).
  - exact (prefix_app_includes _ _ _ H).
  - rewrite (IH H). apply orb_true_r.
Qed.

(** The second test of each conflict check is subsumed by the first. *)
Lemma conflict_test (message what : string) :
  includes message "already exists" ||
  includes message (what ++ "already exists")
  = includes message "already exists".
Proof.
  destruct (includes message "already exists") eqn:E; [reflexivity|]. simpl.
  destruct (includes message (what ++ "already exists")) eqn:E'; [|reflexivity].
  apply includes_app_r in E'. congruence.
Qed.

(** ** The monad *)

(** From here on [++] is list concatenation; strings are appended with
    [+:+]. *)
Open Scope list_scope.

Section Monad.
Context {R : Type}.

Lemma bind_returned {A B} (m : M R A) (f : A -> M R B) r a :
  out (m r) = Returned a ->
  bind m f r = emit (trace (m r)) (f a (remote (m r))).
Proof. unfold bind. destruct (m r) as [t r' o]. cbn. by intros ->. Qed.

Lemma try_catch_returned {A} (m : M R A) (h : string -> M R A) r a :
  out (m r) = Returned a -> try_catch m h r = m r.
Proof. unfold try_catch. destruct (m r) as [t r' o]. cbn. by intros ->. Qed.

Lemma result_eta {A} (x : result R A) :
  x = Result (trace x) (remote x) (out x).
Proof. destruct x; reflexivity. Qed.

(** A loop whose body always returns normally runs to its end. *)
Lemma for_of_returns {A} (body : A -> M R unit) (l : list A) :
  (forall x r, out (body x r) = Returned tt) ->
  forall r, out (for_of l body r) = Returned tt.
Proof.
  intros Hbody. induction l as [|x l IH]; intros r; [reflexivity|].
  cbn [for_of]. rewrite (bind_returned _ _ _ tt) by apply Hbody. apply IH.
Qed.

Lemma for_of_cons {A} (body : A -> M R unit) (x : A) (l : list A) r :
  out (body x r) = Returned tt ->
  for_of (x :: l) body r =
  Result (trace (body x r) ++ trace (for_of l body (remote (body x r))))
    (remote (for_of l body (remote (body x r))))
    (out (for_of l body (remote (body x r)))).
Proof.
  intros H. cbn [for_of].
  apply (bind_returned (body x) (fun _ => for_of l body) r tt H).
Qed.

Lemma for_of_app {A} (body : A -> M R unit) (l1 l2 : list A) :
  (forall x r, out (body x r) = Returned tt) ->
  forall r,
    for_of (l1 ++ l2) body r =
    Result (trace (for_of l1 body r) ++
            trace (for_of l2 body (remote (for_of l1 body r))))
      (remote (for_of l2 body (remote (for_of l1 body r))))
      (out (for_of l2 body (remote (for_of l1 body r)))).
Proof.
  intros Hbody. induction l1 as [|x l1 IH]; intros r.
  - simpl. apply result_eta.
  - rewrite <- app_comm_cons, !for_of_cons by apply Hbody.
    rewrite IH. simpl. rewrite app_assoc. reflexivity.
Qed.
End Monad.

(** ** Reading traces *)

Lemma calls_app (t1 t2 : list event) : calls (t1 ++ t2) = calls t1 ++ calls t2.
Proof. apply omap_app. Qed.

Lemma delays_app (t1 t2 : list event) :
  delays (t1 ++ t2) = delays t1 ++ delays t2.
Proof. apply omap_app. Qed.

Lemma attribute_calls_app (t1 t2 : list event) :
  attribute_calls (t1 ++ t2) = attribute_calls t1 ++ attribute_calls t2.
Proof. unfold attribute_calls. rewrite calls_app. apply filter_app. Qed.

Lemma index_calls_app (t1 t2 : list event) :
  index_calls (t1 ++ t2) = index_calls t1 ++ index_calls t2.
Proof. unfold index_calls. rewrite calls_app. apply filter_app. Qed.

Lemma attribute_request_is_create db cid a q :
  attribute_request db cid a = Some q ->
  is_create_attribute q = true /\ is_create_index q = false /\
  request_collection q = cid /\ request_key q = attr_key a.
Proof.
  unfold attribute_request. intros H.
  repeat match type of H with
         | (if ?b then _ else _) = _ => destruct b
         end; inversion H; subst; simpl; auto.
Qed.

Lemma attribute_request_handled db cid a :
  is_Some (attribute_request db cid a) <-> handled_type (attr_type a) = true.
Proof.
  unfold attribute_request, handled_type.
  repeat match goal with
         | |- context [if ?b then _ else _] => destruct b
         end; simpl; split; intros H; try done; try (by eexists);
    by destruct H.
Qed.

(** ** The loop bodies, case by case *)

Section Bodies.
Context {R : Type} `{!Databases R}.
Implicit Types (r : R) (db : env_value) (cid : string).

Lemma await_resolved r q :
  (respond r q).2 = Resolved ->
  await q r = Result [Call q] (respond r q).1 (Returned tt).
Proof. unfold await. intros ->. reflexivity. Qed.

Lemma await_rejected r q message :
  (respond r q).2 = Rejected message ->
  await q r = Result [Call q] (respond r q).1 (Thrown message).
Proof. unfold await. intros ->. reflexivity. Qed.

Lemma create_attribute_unknown db cid a r :
  attribute_request db cid a = None ->
  create_attribute db cid a r =
  Result [Log (log_attr_warn a)] r (Returned tt).
Proof. unfold create_attribute. intros ->. reflexivity. Qed.

Lemma create_attribute_resolved db cid a q r :
  attribute_request db cid a = Some q ->
  (respond r q).2 = Resolved ->
  create_attribute db cid a r =
  Result [Call q; Log (log_attr_ok a); Delay 100] (respond r q).1
    (Returned tt).
Proof.
  unfold create_attribute, try_catch, bind. intros -> Hq.
  rewrite (await_resolved _ _ Hq). reflexivity.
Qed.

Lemma create_attribute_conflict db cid a q r message :
  attribute_request db cid a = Some q ->
  (respond r q).2 = Rejected message ->
  includes message "already exists" = true ->
  create_attribute db cid a r =
  Result [Call q; Log (log_attr_skip a)] (respond r q).1 (Returned tt).
Proof.
  unfold create_attribute, try_catch, bind. intros -> Hq Hm.
  rewrite (await_rejected _ _ _ Hq). cbn [emit out trace remote].
  rewrite Hm. reflexivity.
Qed.

Lemma create_attribute_failed db cid a q r message :
  attribute_request db cid a = Some q ->
  (respond r q).2 = Rejected message ->
  includes message "already exists" = false ->
  create_attribute db cid a r =
  Result [Call q; Log (log_attr_error a message)] (respond r q).1
    (Returned tt).
Proof.
  unfold create_attribute, try_catch, bind. intros -> Hq Hm.
  rewrite (await_rejected _ _ _ Hq). cbn [emit out trace remote].
  rewrite (conflict_test message "Attribute "
             : _ || includes message "Attribute already exists" = _), Hm.
  reflexivity.
Qed.

Lemma create_index_resolved db cid i r :
  (respond r (index_request db cid i)).2 = Resolved ->
  create_index db cid i r =
  Result [Call (index_request db cid i); Log (log_index_ok i); Delay 200]
    (respond r (index_request db cid i)).1 (Returned tt).
Proof.
  unfold create_index, try_catch, bind. intros Hq.
  rewrite (await_resolved _ _ Hq). reflexivity.
Qed.

Lemma create_index_conflict db cid i r message :
  (respond r (index_request db cid i)).2 = Rejected message ->
  includes message "already exists" = true ->
  create_index db cid i r =
  Result [Call (index_request db cid i); Log (log_index_skip i)]
    (respond r (index_request db cid i)).1 (Returned tt).
Proof.
  unfold create_index, try_catch, bind. intros Hq Hm.
  rewrite (await_rejected _ _ _ Hq). cbn [emit out trace remote].
  rewrite Hm. reflexivity.
Qed.

Lemma create_index_failed db cid i r message :
  (respond r (index_request db cid i)).2 = Rejected message ->
  includes message "already exists" = false ->
  create_index db cid i r =
  Result [Call (index_request db cid i); Log (log_index_error i message)]
    (respond r (index_request db cid i)).1 (Returned tt).
Proof.
  unfold create_index, try_catch, bind. intros Hq Hm.
  rewrite (await_rejected _ _ _ Hq). cbn [emit out trace remote].
  rewrite (conflict_test message "Index "
             : _ || includes message "Index already exists" = _), Hm.
  reflexivity.
Qed.

Lemma create_attribute_step db cid a r :
  attribute_step db cid a r (create_attribute db cid a r).
Proof.
  destruct (attribute_request db cid a) as [q|] eqn:Ha.
  - destruct (respond r q).2 as [|message] eqn:Hq.
    + rewrite (create_attribute_resolved _ _ _ _ _ Ha Hq).
      by eapply step_created.
    + destruct (includes message "already exists") eqn:Hm.
      * rewrite (create_attribute_conflict _ _ _ _ _ _ Ha Hq Hm).
        by eapply step_skipped.
      * rewrite (create_attribute_failed _ _ _ _ _ _ Ha Hq Hm).
        by eapply step_failed.
  - rewrite (create_attribute_unknown _ _ _ _ Ha). by apply step_unknown.
Qed.

Lemma create_index_step db cid i r :
  index_step db cid i r (create_index db cid i r).
Proof.
  destruct (respond r (index_request db cid i)).2 as [|message] eqn:Hq.
  - rewrite (create_index_resolved _ _ _ _ Hq). by apply istep_created.
  - destruct (includes message "already exists") eqn:Hm.
    + rewrite (create_index_conflict _ _ _ _ _ Hq Hm).
      by eapply istep_skipped.
    + rewrite (create_index_failed _ _ _ _ _ Hq Hm). by eapply istep_failed.
Qed.

Lemma create_attribute_returns db cid a r :
  out (create_attribute db cid a r) = Returned tt.
Proof. by destruct (create_attribute_step db cid a r). Qed.

Lemma create_index_returns db cid i r :
  out (create_index db cid i r) = Returned tt.
Proof. by destruct (create_index_step db cid i r). Qed.

Lemma create_attribute_calls db cid a r :
  calls (trace (create_attribute db cid a r)) =
  option_list (attribute_request db cid a).
Proof.
  destruct (create_attribute_step db cid a r) as [->| ? -> | ? ? -> | ? ? ->];
    reflexivity.
Qed.

Lemma create_index_calls db cid i r :
  calls (trace (create_index db cid i r)) = [index_request db cid i].
Proof. by destruct (create_index_step db cid i r). Qed.
End Bodies.

(** ** The loops and the collection body *)

Section Loops.
Context {R : Type} `{!Databases R}.
Implicit Types (r : R) (db : env_value) (cid : string) (c : collection).

Lemma attributes_loop_returns db cid (l : list attribute) r :
  out (for_of l (create_attribute db cid) r) = Returned tt.
Proof. apply for_of_returns, create_attribute_returns. Qed.

Lemma index_loop_returns db cid (l : list index) r :
  out (for_of l (create_index db cid) r) = Returned tt.
Proof. apply for_of_returns, create_index_returns. Qed.

(** The attribute loop issues the request of every descriptor of a
    handled kind, in order, whatever the service answers. *)
Lemma attributes_loop_calls db cid (l : list attribute) r :
  calls (trace (for_of l (create_attribute db cid) r)) =
  omap (attribute_request db cid) l.
Proof.
  revert r. induction l as [|a l IH]; intros r; [reflexivity|].
  rewrite for_of_cons by apply create_attribute_returns.
  cbn [emit trace]. rewrite calls_app, IH, create_attribute_calls.
  cbn [omap list_omap]. by destruct (attribute_request db cid a).
Qed.

Lemma index_loop_calls db cid (l : list index) r :
  calls (trace (for_of l (create_index db cid) r)) =
  index_request db cid <$> l.
Proof.
  revert r. induction l as [|i l IH]; intros r; [reflexivity|].
  rewrite for_of_cons by apply create_index_returns.
  cbn [emit trace]. by rewrite calls_app, IH, create_index_calls.
Qed.

Lemma create_indexes_returns db cid c r :
  out (create_indexes db cid c r) = Returned tt.
Proof.
  unfold create_indexes. destruct (coll_indexes c) as [[|i l]|]; try done.
  unfold bind. cbn [emit console_log out remote]. apply index_loop_returns.
Qed.

Lemma create_indexes_calls db cid c r :
  calls (trace (create_indexes db cid c r)) =
  index_request db cid <$> default [] (coll_indexes c).
Proof.
  unfold create_indexes. destruct (coll_indexes c) as [[|i l]|]; try done.
  unfold bind. cbn [emit console_log out remote trace].
  by rewrite calls_app, index_loop_calls.
Qed.

Lemma setup_collection_unconfigured db c r :
  env_missing (coll_id c) = true ->
  setup_collection db c r =
  Result [Log (log_collection c); Log (log_id_missing c)] r (Returned tt).
Proof. unfold setup_collection. intros ->. reflexivity. Qed.

Lemma setup_collection_rejected db c r message :
  env_missing (coll_id c) = false ->
  (respond r (GetCollection db (env_text (coll_id c)))).2
  = Rejected message ->
  setup_collection db c r =
  Result
    [Log (log_collection c);
     Call (GetCollection db (env_text (coll_id c)));
     Log (if includes message "not found"
          then log_collection_not_found c
          else log_collection_error c message)]
    (respond r (GetCollection db (env_text (coll_id c)))).1 (Returned tt).
Proof.
  unfold setup_collection. intros -> Hq.
  unfold try_catch, bind. cbn [emit console_log out remote trace].
  rewrite (await_rejected _ _ _ Hq). cbn [emit out remote trace].
  by destruct (includes message "not found").
Qed.

Lemma setup_collection_found db c r :
  env_missing (coll_id c) = false ->
  (respond r (GetCollection db (env_text (coll_id c)))).2 = Resolved ->
  let cid := env_text (coll_id c) in
  let x := for_of (coll_attributes c) (create_attribute db cid)
             (respond r (GetCollection db cid)).1 in
  let y := create_indexes db cid c (remote x) in
  setup_collection db c r =
  Result
    ([Log (log_collection c); Call (GetCollection db cid);
      Log (log_collection_found c); Log (log_process c)] ++
     trace x ++ [Log log_wait; Delay 3000] ++ trace y)
    (remote y) (Returned tt).
Proof.
  intros Hid Hq cid x y. unfold setup_collection. rewrite Hid.
  unfold try_catch, bind. cbn [emit console_log sleep out remote trace].
  rewrite (await_resolved _ _ Hq). fold cid. fold x.
  pose proof (attributes_loop_returns db cid (coll_attributes c)
                (respond r (GetCollection db cid)).1) as Hx.
  pose proof (create_indexes_returns db cid c (remote x)) as Hy.
  fold x in Hx. fold y in Hy. unfold y in *. clear y.
  destruct x as [tx rx ox]. cbn [emit out remote trace] in *. subst ox.
  cbn [emit out remote trace].
  destruct (create_indexes db cid c rx) as [ty ry oy].
  cbn [emit out remote trace] in *. subst oy. reflexivity.
Qed.
End Loops.

(** ** The whole run *)

Section Run.
Context {R : Type} `{!Databases R}.
Implicit Types (r : R) (db : env_value) (c : collection)
  (cs : list collection).

(** No failure of the service escapes the body of the collection loop. *)
Lemma setup_collection_returns db c r :
  out (setup_collection db c r) = Returned tt.
Proof.
  destruct (env_missing (coll_id c)) eqn:Hid.
  - by rewrite setup_collection_unconfigured.
  - destruct (respond r (GetCollection db (env_text (coll_id c)))).2
      as [|message] eqn:Hq.
    + by rewrite setup_collection_found.
    + by rewrite (setup_collection_rejected _ _ _ message).
Qed.

Lemma setup_collections_returns db cs r :
  out (setup_collections db cs r) = Returned tt.
Proof. apply for_of_returns, setup_collection_returns. Qed.

Lemma setup_collections_cons db c cs r :
  setup_collections db (c :: cs) r =
  Result
    (trace (setup_collection db c r) ++
     trace (setup_collections db cs (remote (setup_collection db c r))))
    (remote (setup_collections db cs (remote (setup_collection db c r))))
    (Returned tt).
Proof.
  unfold setup_collections.
  rewrite for_of_cons by apply setup_collection_returns.
  f_equal. apply (setup_collections_returns db cs).
Qed.

Lemma setup_collections_app db cs1 cs2 r :
  setup_collections db (cs1 ++ cs2) r =
  Result
    (trace (setup_collections db cs1 r) ++
     trace (setup_collections db cs2 (remote (setup_collections db cs1 r))))
    (remote (setup_collections db cs2 (remote (setup_collections db cs1 r))))
    (Returned tt).
Proof.
  unfold setup_collections.
  rewrite for_of_app by apply setup_collection_returns.
  f_equal. apply (setup_collections_returns db cs2).
Qed.

Lemma setup_collections_segments db cs r :
  trace (setup_collections db cs r) = concat (segments db cs r).
Proof.
  revert r. induction cs as [|c cs IH]; intros r; [reflexivity|].
  rewrite setup_collections_cons. cbn [emit trace segments concat].
  by rewrite IH.
Qed.

Lemma segments_length db cs r : length (segments db cs r) = length cs.
Proof.
  revert r. induction cs as [|c cs IH]; intros r; [reflexivity|].
  cbn [segments length]. by rewrite IH.
Qed.

Lemma log_summary_eq r :
  log_summary r = Result (take 7 summary_lines) r (Returned tt).
Proof. reflexivity. Qed.

Lemma setupDatabase_with_eq db cs r :
  setupDatabase_with db cs r =
  Result
    (Log "[START] Starting ArbanTv database attributes setup..." ::
     trace (setup_collections db cs r) ++ take 7 summary_lines)
    (remote (setup_collections db cs r)) (Returned tt).
Proof.
  assert (Hbody : bind (setup_collections db cs) (fun _ => log_summary) r =
                  Result
                    (trace (setup_collections db cs r) ++
                     take 7 summary_lines)
                    (remote (setup_collections db cs r)) (Returned tt)).
  { rewrite (bind_returned (setup_collections db cs) (fun _ => log_summary)
               r tt) by apply setup_collections_returns.
    by rewrite log_summary_eq. }
  unfold setupDatabase_with.
  rewrite (bind_returned (console_log _) _ r tt) by reflexivity.
  change (remote (console_log _ r)) with r.
  rewrite (try_catch_returned _ _ r tt) by (by rewrite Hbody).
  by rewrite Hbody.
Qed.

(** The run always reaches [process.exit(0)]. *)
Lemma run_with_eq db cs r :
  run_with db cs r =
  Result
    (Log "[START] Starting ArbanTv database attributes setup..." ::
     trace (setup_collections db cs r) ++ summary_lines)
    (remote (setup_collections db cs r)) (Exited 0).
Proof.
  unfold run_with, try_catch.
  rewrite (bind_returned (setupDatabase_with db cs) _ r tt)
    by (by rewrite setupDatabase_with_eq).
  rewrite setupDatabase_with_eq. cbn [trace remote]. unfold emit.
  change (bind (console_log ?l) ?f ?r') with (emit [Log l] (f tt r')).
  cbn [emit process_exit trace remote out]. f_equal.
  rewrite <- app_comm_cons, <- app_assoc. reflexivity.
Qed.

(** The module entry is the run over the declared collections. *)
Lemma main_run_with (env : process_env) (ID_unique : nat -> string) :
  main env ID_unique =
  run_with (APPWRITE_DATABASE_ID env) (collections env ID_unique).
Proof. reflexivity. Qed.

Lemma run_with_exit_code db cs r : exit_code (run_with db cs r) = Some 0.
Proof. by rewrite run_with_eq. Qed.

Lemma run_with_attribute_calls db cs r :
  attribute_calls (trace (run_with db cs r)) =
  attribute_calls (trace (setup_collections db cs r)).
Proof.
  rewrite run_with_eq. cbn [emit trace].
  change (Log ?l :: ?t) with ([Log l] ++ t).
  rewrite !attribute_calls_app. cbn. by rewrite app_nil_r.
Qed.

Lemma run_with_index_calls db cs r :
  index_calls (trace (run_with db cs r)) =
  index_calls (trace (setup_collections db cs r)).
Proof.
  rewrite run_with_eq. cbn [emit trace].
  change (Log ?l :: ?t) with ([Log l] ++ t).
  rewrite !index_calls_app. cbn. by rewrite app_nil_r.
Qed.
End Run.

(** ** Which calls a collection gets *)

Lemma attribute_requests_filter db cid (l : list attribute) :
  filter (fun q => is_create_attribute q = true)
    (omap (attribute_request db cid) l) = omap (attribute_request db cid) l
  /\ filter (fun q => is_create_index q = true)
       (omap (attribute_request db cid) l) = [].
Proof.
  induction l as [|a l [IH1 IH2]]; [done|]. cbn [omap list_omap].
  destruct (attribute_request db cid a) as [q|] eqn:Ha; [|done].
  destruct (attribute_request_is_create _ _ _ _ Ha) as (H1 & H2 & _).
  split.
  - rewrite filter_cons_True by done. by f_equal.
  - rewrite filter_cons_False by (by rewrite H2). done.
Qed.

Lemma index_requests_filter db cid (l : list index) :
  filter (fun q => is_create_attribute q = true) (index_request db cid <$> l)
  = []
  /\ filter (fun q => is_create_index q = true) (index_request db cid <$> l)
     = index_request db cid <$> l.
Proof.
  induction l as [|i l [IH1 IH2]]; [done|]. cbn [fmap list_fmap]. split.
  - rewrite filter_cons_False by done. done.
  - rewrite filter_cons_True by done. by f_equal.
Qed.

Section Calls.
Context {R : Type} `{!Databases R}.
Implicit Types (r : R) (db : env_value) (c : collection)
  (cs : list collection).

Lemma setup_collection_found_calls db c r :
  env_missing (coll_id c) = false ->
  (respond r (GetCollection db (env_text (coll_id c)))).2 = Resolved ->
  calls (trace (setup_collection db c r)) =
  GetCollection db (env_text (coll_id c)) ::
  collection_attribute_requests db c ++ collection_index_requests db c.
Proof.
  intros Hid Hq. rewrite (setup_collection_found _ _ _ Hid Hq).
  cbn [emit trace]. rewrite !calls_app, attributes_loop_calls.
  rewrite create_indexes_calls. reflexivity.
Qed.

Lemma setup_collection_found_attribute_calls db c r :
  env_missing (coll_id c) = false ->
  (respond r (GetCollection db (env_text (coll_id c)))).2 = Resolved ->
  attribute_calls (trace (setup_collection db c r)) =
  collection_attribute_requests db c.
Proof.
  intros Hid Hq. unfold attribute_calls.
  rewrite (setup_collection_found_calls _ _ _ Hid Hq).
  rewrite filter_cons_False by done. rewrite filter_app.
  unfold collection_attribute_requests, collection_index_requests.
  rewrite (proj1 (attribute_requests_filter _ _ _)).
  rewrite (proj1 (index_requests_filter _ _ _)). apply app_nil_r.
Qed.

Lemma setup_collection_found_index_calls db c r :
  env_missing (coll_id c) = false ->
  (respond r (GetCollection db (env_text (coll_id c)))).2 = Resolved ->
  index_calls (trace (setup_collection db c r)) =
  collection_index_requests db c.
Proof.
  intros Hid Hq. unfold index_calls.
  rewrite (setup_collection_found_calls _ _ _ Hid Hq).
  rewrite filter_cons_False by done. rewrite filter_app.
  unfold collection_attribute_requests, collection_index_requests.
  rewrite (proj2 (attribute_requests_filter _ _ _)).
  by rewrite (proj2 (index_requests_filter _ _ _)).
Qed.

(** With every identifier configured and a service that resolves every
    request, the run issues the requests of all descriptors, collection
    by collection. *)
Lemma setup_collections_all_resolved db cs r :
  Forall (fun c => env_missing (coll_id c) = false) cs ->
  (forall r' q, (respond r' q).2 = Resolved) ->
  attribute_calls (trace (setup_collections db cs r)) =
  concat (collection_attribute_requests db <$> cs)
  /\ index_calls (trace (setup_collections db cs r)) =
     concat (collection_index_requests db <$> cs).
Proof.
  intros Hids Hok. revert r.
  induction Hids as [|c cs Hid _ IH]; intros r; [done|].
  rewrite setup_collections_cons. cbn [emit trace fmap list_fmap concat].
  rewrite attribute_calls_app, index_calls_app.
  rewrite (setup_collection_found_attribute_calls _ _ _ Hid (Hok _ _)).
  rewrite (setup_collection_found_index_calls _ _ _ Hid (Hok _ _)).
  destruct (IH (remote (setup_collection db c r))) as [-> ->]. done.
Qed.
End Calls.

(** ** The service along a run *)

Section Tracking.
Context {R : Type} `{!Databases R}.
Implicit Types (r : R) (db : env_value) (cid : string) (c : collection)
  (cs : list collection).

Lemma after_app r (l1 l2 : list request) :
  after r (l1 ++ l2) = after (after r l1) l2.
Proof. revert r. induction l1 as [|q l1 IH]; intros r; [done|apply IH]. Qed.

Lemma answers_app r (l1 l2 : list request) :
  answers r (l1 ++ l2) = answers r l1 ++ answers (after r l1) l2.
Proof.
  revert r. induction l1 as [|q l1 IH]; intros r; [done|].
  cbn [app answers after]. by rewrite IH.
Qed.

Lemma tracks_log (line : string) : tracks (console_log (R:=R) line).
Proof. by intros r. Qed.

Lemma tracks_sleep (ms : Z) : tracks (sleep (R:=R) ms).
Proof. by intros r. Qed.

Lemma tracks_ret {A} (a : A) : tracks (ret (R:=R) a).
Proof. by intros r. Qed.

Lemma tracks_await (q : request) : tracks (await q).
Proof. by intros r. Qed.

Lemma tracks_bind {A B} (m : M R A) (f : A -> M R B) :
  tracks m -> (forall a, tracks (f a)) -> tracks (bind m f).
Proof.
  intros Hm Hf r. specialize (Hm r). unfold bind.
  destruct (m r) as [t r' [a|e|code]]; cbn [trace remote] in *; [|done..].
  cbn [emit trace remote]. rewrite calls_app, after_app, Hm. apply Hf.
Qed.

Lemma tracks_try_catch {A} (m : M R A) (h : string -> M R A) :
  tracks m -> (forall e, tracks (h e)) -> tracks (try_catch m h).
Proof.
  intros Hm Hh r. specialize (Hm r). unfold try_catch.
  destruct (m r) as [t r' [a|e|code]]; cbn [trace remote] in *;
    [done| |done].
  cbn [emit trace remote]. rewrite calls_app, after_app, Hm. apply Hh.
Qed.

Lemma tracks_for_of {A} (body : A -> M R unit) (l : list A) :
  (forall x, tracks (body x)) -> tracks (for_of l body).
Proof.
  intros Hbody. induction l as [|x l IH]; [apply tracks_ret|].
  cbn [for_of]. by apply tracks_bind.
Qed.

Lemma tracks_create_attribute db cid a : tracks (create_attribute db cid a).
Proof.
  unfold create_attribute. apply tracks_try_catch.
  - destruct (attribute_request db cid a); [|apply tracks_log].
    repeat (apply tracks_bind; intros);
      auto using tracks_await, tracks_log, tracks_sleep.
  - intros e. destruct (_ || _); apply tracks_log.
Qed.

Lemma tracks_create_index db cid i : tracks (create_index db cid i).
Proof.
  unfold create_index. apply tracks_try_catch.
  - repeat (apply tracks_bind; intros);
      auto using tracks_await, tracks_log, tracks_sleep.
  - intros e. destruct (_ || _); apply tracks_log.
Qed.

Lemma tracks_create_indexes db cid c : tracks (create_indexes db cid c).
Proof.
  unfold create_indexes.
  destruct (coll_indexes c) as [[|i l]|]; try apply tracks_ret.
  apply tracks_bind; [apply tracks_log|intros _].
  apply tracks_for_of, tracks_create_index.
Qed.

Lemma tracks_setup_collection db c : tracks (setup_collection db c).
Proof.
  unfold setup_collection. apply tracks_bind; [apply tracks_log|intros _].
  destruct (env_missing (coll_id c)); [apply tracks_log|].
  apply tracks_try_catch.
  - repeat (apply tracks_bind; [|intros _]);
      auto using tracks_await, tracks_log, tracks_sleep,
        tracks_create_indexes.
    apply tracks_for_of, tracks_create_attribute.
  - intros e. destruct (includes e "not found"); apply tracks_log.
Qed.

Lemma tracks_setup_collections db cs : tracks (setup_collections db cs).
Proof. apply tracks_for_of, tracks_setup_collection. Qed.

Lemma run_with_calls db cs r :
  calls (trace (run_with db cs r)) = calls (trace (setup_collections db cs r)).
Proof.
  rewrite run_with_eq. cbn [trace].
  change (Log ?l :: ?t) with ([Log l] ++ t).
  rewrite !calls_app. cbn. by rewrite app_nil_r.
Qed.

(** With every identifier configured, when the service resolves each call
    of the run at the state the run has brought it to, the run issues the
    requests of all descriptors, collection by collection. *)
Lemma setup_collections_all_answered db cs r :
  Forall (fun c => env_missing (coll_id c) = false) cs ->
  forallb is_resolved
    (answers r (calls (trace (setup_collections db cs r)))) = true ->
  attribute_calls (trace (setup_collections db cs r)) =
  concat (collection_attribute_requests db <$> cs)
  /\ index_calls (trace (setup_collections db cs r)) =
     concat (collection_index_requests db <$> cs).
Proof.
  intros Hids. revert r.
  induction Hids as [|c cs Hid _ IH]; intros r; [done|].
  rewrite setup_collections_cons. cbn [trace fmap list_fmap concat].
  rewrite calls_app, answers_app, forallb_app, tracks_setup_collection.
  intros [Hc Hcs]%andb_true_iff.
  rewrite attribute_calls_app, index_calls_app.
  destruct (IH _ Hcs) as [-> ->].
  destruct (respond r (GetCollection db (env_text (coll_id c)))).2
    as [|message] eqn:Hq.
  - rewrite (setup_collection_found_attribute_calls _ _ _ Hid Hq).
    by rewrite (setup_collection_found_index_calls _ _ _ Hid Hq).
  - rewrite (setup_collection_rejected _ _ _ message) in Hc by done.
    cbn [trace calls omap list_omap call_of answers forallb] in Hc.
    by rewrite Hq in Hc.
Qed.
End Tracking.

(** ** The declared schema *)

(** C1.  Over the declared collections, when all four collection
    identifiers are configured and every call of the run succeeds (the
    service resolves each lookup and each create call that the run makes,
    at the state the run has brought it to), the run issues one
    create-attribute call per declared attribute descriptor, 30 in all,
    and one create-index call per declared index descriptor, 7 in all,
    each being the request its descriptor stands for and in the order of
    the declaration, and the process exits with code 0. *)
Theorem declared_schema_applied_once
    {R : Type} `{!Databases R} (env : process_env) (ID_unique : nat -> string)
    (r : R) :
  env_missing (CREATORS_COLLECTION_ID env) = false ->
  env_missing (VIDEOS_COLLECTION_ID env) = false ->
  env_missing (COMMENTS_COLLECTION_ID env) = false ->
  env_missing (TAGS_COLLECTION_ID env) = false ->
  forallb is_resolved
    (answers r (calls (trace (main env ID_unique r)))) = true ->
  let db := APPWRITE_DATABASE_ID env in
  let cs := collections env ID_unique in
  let x := main env ID_unique r in
  Some <$> attribute_calls (trace x) =
    concat ((fun c => attribute_request db (env_text (coll_id c)) <$>
                        coll_attributes c) <$> cs)
  /\ index_calls (trace x) =
     concat ((fun c => index_request db (env_text (coll_id c)) <$>
                         default [] (coll_indexes c)) <$> cs)
  /\ length (attribute_calls (trace x)) =
     length (concat (coll_attributes <$> cs))
  /\ length (attribute_calls (trace x)) = 30%nat
  /\ length (index_calls (trace x)) = 7%nat
  /\ exit_code x = Some 0.
Proof.
  intros H1 H2 H3 H4 Hok db cs x.
  assert (Hids : Forall (fun c => env_missing (coll_id c) = false) cs)
    by (repeat constructor; assumption).
  rewrite (main_run_with env ID_unique), run_with_calls in Hok.
  destruct (setup_collections_all_answered db cs r Hids Hok) as [Ha Hi].
  unfold x. rewrite (main_run_with env ID_unique). fold db cs.
  rewrite run_with_attribute_calls, run_with_index_calls, Ha, Hi.
  repeat split; try reflexivity. apply run_with_exit_code.
Qed.

Lemma declared_schema_applied_once_witness :
  forallb is_resolved
    (answers fresh_service
       (calls (trace (main test_env test_unique fresh_service)))) = true /\
  length (attribute_calls (trace (main test_env test_unique fresh_service)))
  = 30%nat /\
  length (index_calls (trace (main test_env test_unique fresh_service)))
  = 7%nat /\
  exit_code (main test_env test_unique fresh_service) = Some 0.
Proof.
  assert (Hok : forallb is_resolved
                  (answers fresh_service
                     (calls (trace (main test_env test_unique
                                      fresh_service)))) = true)
    by (vm_compute; reflexivity).
  split; [exact Hok|].
  destruct (declared_schema_applied_once (Databases0:=in_memory) test_env
              test_unique fresh_service eq_refl eq_refl eq_refl eq_refl Hok)
    as (_ & _ & _ & H30 & H7 & Hexit).
  split; [exact H30|]. split; [exact H7|exact Hexit].
Defined.

(** ** Conflicts *)

Section Applied.
Context {R : Type} `{!Databases R}.
Implicit Types (r : R) (db : env_value) (cid : string) (c : collection)
  (cs : list collection).

Lemma attributes_loop_applied db cid (l : list attribute) r :
  conflicting r (omap (attribute_request db cid) l) ->
  remote (for_of l (create_attribute db cid) r) = r /\
  quiet (trace (for_of l (create_attribute db cid) r)).
Proof.
  induction l as [|a l IH]; intros Hl; [by split; [|constructor]|].
  rewrite for_of_cons by apply create_attribute_returns.
  cbn [emit remote trace]. cbn [omap list_omap] in Hl.
  destruct (create_attribute_step db cid a r)
    as [Ha|q Ha Hq|q message Ha Hq Hm|q message Ha Hq Hm];
    rewrite Ha in Hl; cbn [emit remote trace].
  - destruct (IH Hl) as [-> Hquiet]. split; [done|].
    by repeat constructor.
  - apply Forall_cons in Hl as [[_ Hc] _]. by rewrite Hq in Hc.
  - apply Forall_cons in Hl as [[-> _] Hl]. destruct (IH Hl) as [-> Hquiet].
    split; [done|]. by repeat constructor.
  - apply Forall_cons in Hl as [[_ Hc] _]. rewrite Hq in Hc.
    cbn in Hc. congruence.
Qed.

Lemma index_loop_applied db cid (l : list index) r :
  conflicting r (index_request db cid <$> l) ->
  remote (for_of l (create_index db cid) r) = r /\
  quiet (trace (for_of l (create_index db cid) r)).
Proof.
  induction l as [|i l IH]; intros Hl; [by split; [|constructor]|].
  rewrite for_of_cons by apply create_index_returns.
  cbn [emit remote trace]. cbn [fmap list_fmap] in Hl.
  apply Forall_cons in Hl as [[Hr Hc] Hl].
  destruct (create_index_step db cid i r)
    as [Hq|message Hq Hm|message Hq Hm]; cbn [emit remote trace].
  - by rewrite Hq in Hc.
  - rewrite Hr. destruct (IH Hl) as [-> Hquiet].
    split; [done|]. by repeat constructor.
  - rewrite Hq in Hc. cbn in Hc. congruence.
Qed.

Lemma create_indexes_applied db cid c r :
  conflicting r (index_request db cid <$> default [] (coll_indexes c)) ->
  remote (create_indexes db cid c r) = r /\
  quiet (trace (create_indexes db cid c r)).
Proof.
  unfold create_indexes.
  destruct (coll_indexes c) as [[|i l]|]; cbn [default];
    try (by split; [|constructor]).
  intros Hl. destruct (index_loop_applied db cid (i :: l) r Hl) as [Hr Hq].
  unfold bind. cbn [emit console_log out remote trace].
  split; [done|]. by constructor.
Qed.

Lemma setup_collection_applied db c r :
  already_applied db [c] r ->
  remote (setup_collection db c r) = r /\
  quiet (trace (setup_collection db c r)).
Proof.
  intros Hc. apply Forall_cons in Hc as [Hc _].
  destruct (env_missing (coll_id c)) eqn:Hid.
  - rewrite setup_collection_unconfigured by done.
    split; [done|]. by repeat constructor.
  - destruct (Hc eq_refl) as [Hget Hreqs].
    apply Forall_app in Hreqs as [Hattrs Hidxs].
    destruct (respond r (GetCollection db (env_text (coll_id c)))).2
      as [|message] eqn:Hq.
    + rewrite setup_collection_found by done. cbn [emit remote trace].
      rewrite Hget.
      destruct (attributes_loop_applied db _ _ r Hattrs) as [-> Hq1].
      destruct (create_indexes_applied db _ c r Hidxs) as [-> Hq2].
      split; [done|]. repeat (apply Forall_cons; split; [done|]).
      apply Forall_app; split; [done|].
      by repeat (apply Forall_cons; split; [done|]).
    + rewrite (setup_collection_rejected _ _ _ message) by done.
      cbn [emit remote trace]. split; [done|].
      repeat constructor. by destruct (includes message "not found").
Qed.

Lemma setup_collections_applied db cs r :
  already_applied db cs r ->
  remote (setup_collections db cs r) = r /\
  quiet (trace (setup_collections db cs r)).
Proof.
  induction cs as [|c cs IH]; intros Hcs; [by split; [|constructor]|].
  apply Forall_cons in Hcs as [Hc Hcs].
  rewrite setup_collections_cons. cbn [emit remote trace].
  destruct (setup_collection_applied db c r) as [-> Hq1];
    [by constructor|].
  destruct (IH Hcs) as [-> Hq2]. split; [done|]. by apply Forall_app.
Qed.
End Applied.

(** The in-memory service rejects as a conflict, and ignores, a create
    request for a key that it holds; a lookup never changes it. *)
Lemma service_has_conflict (s : service) (q : request) :
  service_has s q = true ->
  (respond s q).1 = s /\ is_conflict (respond s q).2 = true.
Proof.
  unfold service_has, respond, in_memory, service_respond.
  destruct (is_create_attribute q); [|destruct (is_create_index q)];
    try discriminate; intros Hin%bool_decide_eq_true;
    (destruct (decide _); [done|contradiction]).
Qed.

Lemma service_lookup_unchanged (s : service) (db : env_value) (cid : string) :
  (respond s (GetCollection db cid)).1 = s.
Proof.
  unfold respond, in_memory, service_respond. cbn [is_create_attribute
    is_create_index]. by destruct (decide _).
Qed.

Lemma service_already_applied (db : env_value) (cs : list collection)
    (s : service) :
  forallb (fun c =>
    forallb (service_has s)
      (collection_attribute_requests db c ++ collection_index_requests db c))
    cs = true ->
  already_applied db cs s.
Proof.
  intros Hcs. apply Forall_forall. intros c Hc _.
  split; [apply service_lookup_unchanged|].
  apply Forall_forall. intros q Hq. apply service_has_conflict.
  rewrite forallb_forall in Hcs. apply list_elem_of_In in Hc, Hq.
  specialize (Hcs c Hc). rewrite forallb_forall in Hcs. by apply Hcs.
Qed.

(** C2.  A create-attribute or create-index call that is rejected with a
    message saying that the key already exists is reported as a skip, not
    as an error, and the loop goes on with the next descriptor from the
    state the service is left in.  Consequently, at a state of the service
    where the schema is already applied, a run changes nothing at the
    service, reports neither a creation nor a failure, exits with code 0,
    and a further run repeats it exactly. *)
Theorem conflicts_are_skipped {R : Type} `{!Databases R} :
  (forall db cid a l q (r : R) message,
     attribute_request db cid a = Some q ->
     (respond r q).2 = Rejected message ->
     includes message "already exists" = true ->
     let y := for_of l (create_attribute db cid) (respond r q).1 in
     for_of (a :: l) (create_attribute db cid) r =
     Result ([Call q; Log (log_attr_skip a)] ++ trace y) (remote y)
       (Returned tt))
  /\ (forall db cid i l (r : R) message,
        (respond r (index_request db cid i)).2 = Rejected message ->
        includes message "already exists" = true ->
        let y := for_of l (create_index db cid)
                   (respond r (index_request db cid i)).1 in
        for_of (i :: l) (create_index db cid) r =
        Result ([Call (index_request db cid i); Log (log_index_skip i)] ++
                trace y) (remote y) (Returned tt))
  /\ (forall db cs (r : R),
        already_applied db cs r ->
        let x := run_with db cs r in
        remote x = r /\ quiet (trace x) /\ exit_code x = Some 0 /\
        run_with db cs (remote x) = x).
Proof.
  split; [|split].
  - intros db cid a l q r message Ha Hq Hm y.
    rewrite for_of_cons by apply create_attribute_returns.
    rewrite (create_attribute_conflict _ _ _ _ _ _ Ha Hq Hm).
    cbn [emit trace remote]. fold y. f_equal. apply attributes_loop_returns.
  - intros db cid i l r message Hq Hm y.
    rewrite for_of_cons by apply create_index_returns.
    rewrite (create_index_conflict _ _ _ _ _ Hq Hm).
    cbn [emit trace remote]. fold y. f_equal. apply index_loop_returns.
  - intros db cs r Hr x. unfold x.
    destruct (setup_collections_applied db cs r Hr) as [Hremote Hquiet].
    assert (Hx : remote (run_with db cs r) = r)
      by (rewrite run_with_eq; exact Hremote).
    rewrite Hx. repeat split; try done.
    + rewrite run_with_eq. cbn [emit trace]. constructor; [done|].
      apply Forall_app. split; [done|]. by repeat constructor.
    + apply run_with_exit_code.
Qed.

Lemma conflicts_are_skipped_witness :
  (let a := attr "user_id" "string" (JNum 255) (JBool true) JUndefined
              JUndefined in
   let next := attr "handle" "string" (JNum 50) (JBool true) JUndefined
                 JUndefined in
   trace (for_of [a; next] (create_attribute (Some "arbantv") "creators")
            [Rejected "Attribute already exists"]) =
   [ Call (CreateStringAttribute (Some "arbantv") "creators" "user_id"
             (JNum 255) (JBool true) JNull (JBool false));
     Log (log_attr_skip a);
     Call (CreateStringAttribute (Some "arbantv") "creators" "handle"
             (JNum 50) (JBool true) JNull (JBool false));
     Log (log_attr_ok next);
     Delay 100 ])
  /\ (let i := idx "user_id_index" "key" ["user_id"] JUndefined in
      trace (for_of [i] (create_index (Some "arbantv") "creators")
               [Rejected "Index already exists"]) =
      [ Call (CreateIndex (Some "arbantv") "creators" "user_id_index" "key"
                ["user_id"] []);
        Log (log_index_skip i) ])
  /\ (already_applied (Some "arbantv") (collections test_env test_unique)
        applied_service
      /\ let x := run_with (Some "arbantv") (collections test_env test_unique)
                    applied_service in
         remote x = applied_service /\ quiet (trace x) /\
         exit_code x = Some 0 /\
         run_with (Some "arbantv") (collections test_env test_unique)
           (remote x) = x).
Proof.
  destruct (conflicts_are_skipped (Databases0:=scripted))
    as (Hattr & Hidx & _).
  destruct (conflicts_are_skipped (Databases0:=in_memory))
    as (_ & _ & Hrun).
  split; [|split].
  - intros a next.
    rewrite (Hattr (Some "arbantv") "creators" a [next] _
               [Rejected "Attribute already exists"]
               "Attribute already exists" eq_refl eq_refl eq_refl).
    reflexivity.
  - intros i.
    rewrite (Hidx (Some "arbantv") "creators" i []
               [Rejected "Index already exists"]
               "Index already exists" eq_refl eq_refl).
    reflexivity.
  - assert (Happlied : already_applied (Some "arbantv")
                         (collections test_env test_unique) applied_service).
    { apply service_already_applied. vm_compute. reflexivity. }
    split; [exact Happlied|].
    exact (Hrun (Some "arbantv") (collections test_env test_unique)
             applied_service Happlied).
Defined.

(** ** Order of the calls *)

Lemma lookup_call_elem_of (t : list event) (i : nat) (q : request) :
  t !! i = Some (Call q) -> q ∈ calls t.
Proof.
  intros Hi. apply list_elem_of_omap. exists (Call q).
  split; [by eapply list_elem_of_lookup_2|done].
Qed.

Lemma lookup_index_call (t : list event) (i : nat) (q : request) :
  t !! i = Some (Call q) -> is_create_index q = true -> q ∈ index_calls t.
Proof.
  intros Hi Hq. apply list_elem_of_filter. split; [done|].
  by eapply lookup_call_elem_of.
Qed.

Lemma lookup_attribute_call (t : list event) (i : nat) (q : request) :
  t !! i = Some (Call q) -> is_create_attribute q = true ->
  q ∈ attribute_calls t.
Proof.
  intros Hi Hq. apply list_elem_of_filter. split; [done|].
  by eapply lookup_call_elem_of.
Qed.

(** A trace made of a part without index calls followed by a part without
    attribute calls is ordered. *)
Lemma attributes_before_indexes_app (t1 t2 : list event) :
  index_calls t1 = [] -> attribute_calls t2 = [] ->
  attributes_before_indexes (t1 ++ t2).
Proof.
  intros H1 H2 i j qi qa Hi Hqi Hj Hqa.
  destruct (decide (i < length t1)%nat) as [Hlt|Hge].
  { rewrite lookup_app_l in Hi by done.
    pose proof (lookup_index_call _ _ _ Hi Hqi) as Hin.
    rewrite H1 in Hin. by apply elem_of_nil in Hin. }
  destruct (decide (j < length t1)%nat) as [Hlt'|Hge']; [lia|].
  rewrite lookup_app_r in Hj by lia.
  pose proof (lookup_attribute_call _ _ _ Hj Hqa) as Hin.
  rewrite H2 in Hin. by apply elem_of_nil in Hin.
Qed.

Section Order.
Context {R : Type} `{!Databases R}.
Implicit Types (r : R) (db : env_value) (c : collection)
  (cs : list collection).

Lemma setup_collection_ordered db c r :
  attributes_before_indexes (trace (setup_collection db c r)).
Proof.
  destruct (env_missing (coll_id c)) eqn:Hid.
  { rewrite setup_collection_unconfigured by done.
    by apply (attributes_before_indexes_app [] _). }
  destruct (respond r (GetCollection db (env_text (coll_id c)))).2
    as [|message] eqn:Hq.
  - rewrite setup_collection_found by done. cbn [emit trace].
    rewrite app_assoc. apply attributes_before_indexes_app.
    + rewrite index_calls_app. unfold index_calls at 2.
      rewrite attributes_loop_calls.
      by rewrite (proj2 (attribute_requests_filter _ _ _)).
    + rewrite attribute_calls_app. unfold attribute_calls at 2.
      rewrite create_indexes_calls.
      by rewrite (proj1 (index_requests_filter _ _ _)).
  - rewrite (setup_collection_rejected _ _ _ message) by done.
    by apply (attributes_before_indexes_app [] _).
Qed.

(** Every call made for a collection is addressed to its identifier. *)
Lemma setup_collection_addressed db c r q :
  q ∈ calls (trace (setup_collection db c r)) ->
  configured_id c = Some (request_collection q).
Proof.
  unfold configured_id. destruct (env_missing (coll_id c)) eqn:Hid.
  { rewrite setup_collection_unconfigured by done.
    intros Hin. by apply elem_of_nil in Hin. }
  destruct (respond r (GetCollection db (env_text (coll_id c)))).2
    as [|message] eqn:Hq.
  - rewrite setup_collection_found_calls by done.
    rewrite elem_of_cons, elem_of_app. intros [->|[Hin|Hin]]; [done| |].
    + apply list_elem_of_omap in Hin as (a & _ & Ha).
      by destruct (attribute_request_is_create _ _ _ _ Ha) as (_ & _ & -> & _).
    + by apply list_elem_of_fmap in Hin as (i & -> & _).
  - rewrite (setup_collection_rejected _ _ _ message) by done.
    intros Hin. by apply list_elem_of_singleton in Hin as ->.
Qed.

Lemma setup_collections_addressed db cs r q :
  q ∈ calls (trace (setup_collections db cs r)) ->
  request_collection q ∈ omap configured_id cs.
Proof.
  revert r. induction cs as [|c cs IH]; intros r.
  { intros Hin. by apply elem_of_nil in Hin. }
  rewrite setup_collections_cons. cbn [emit trace]. rewrite calls_app.
  rewrite elem_of_app. intros [Hin|Hin].
  - apply list_elem_of_omap. exists c. split; [apply elem_of_cons; by left|].
    by eapply setup_collection_addressed.
  - apply IH in Hin. apply list_elem_of_omap in Hin as (c' & Hc' & Hid).
    apply list_elem_of_omap. exists c'. split; [|done].
    apply elem_of_cons. by right.
Qed.

Lemma setup_collections_ordered db cs r :
  NoDup (omap configured_id cs) ->
  attributes_before_indexes_per_collection
    (trace (setup_collections db cs r)).
Proof.
  revert r. induction cs as [|c cs IH]; intros r Hnd.
  { intros i j qi qa Hi. done. }
  rewrite setup_collections_cons. cbn [emit trace].
  set (t1 := trace (setup_collection db c r)).
  set (t2 := trace (setup_collections db cs _)).
  assert (Hrest : NoDup (omap configured_id cs)).
  { cbn [omap list_omap] in Hnd.
    destruct (configured_id c); [by apply NoDup_cons in Hnd as [_ ?]|done]. }
  intros i j qi qa Hi Hqi Hj Hqa Hsame.
  destruct (decide (i < length t1)%nat) as [Hi1|Hi2];
    destruct (decide (j < length t1)%nat) as [Hj1|Hj2]; [| |lia|].
  - rewrite lookup_app_l in Hi, Hj by done.
    by eapply (setup_collection_ordered db c r).
  - exfalso. rewrite lookup_app_l in Hi by done.
    rewrite lookup_app_r in Hj by lia.
    apply lookup_call_elem_of in Hi, Hj.
    apply setup_collection_addressed in Hi.
    apply setup_collections_addressed in Hj.
    cbn [omap list_omap] in Hnd. rewrite Hi in Hnd.
    apply NoDup_cons in Hnd as [Hnotin _]. by rewrite Hsame in Hnotin.
  - rewrite lookup_app_r in Hi, Hj by lia.
    pose proof (IH _ Hrest _ _ _ _ Hi Hqi Hj Hqa Hsame). lia.
Qed.

Lemma segments_ordered db cs r :
  Forall2 (fun c t =>
    attributes_before_indexes t /\
    forall q, q ∈ calls t -> configured_id c = Some (request_collection q))
    cs (segments db cs r).
Proof.
  revert r. induction cs as [|c cs IH]; intros r; [constructor|].
  cbn [segments]. constructor; [|apply IH]. split.
  - apply setup_collection_ordered.
  - intros q. apply setup_collection_addressed.
Qed.
End Order.

(** C3.  The trace of a run is the start line, then one segment per
    collection descriptor in the order of the descriptors, then the
    closing lines.  In the segment of each collection every call is
    addressed to that collection's identifier and every create-attribute
    call comes before every create-index call.  When the configured
    identifiers are pairwise distinct this holds across the whole trace:
    no create-index call on a collection precedes a create-attribute call
    on the same collection. *)
Theorem attributes_precede_indexes
    {R : Type} `{!Databases R} (db : env_value) (cs : list collection) (r : R) :
  trace (run_with db cs r) =
    Log "[START] Starting ArbanTv database attributes setup..." ::
    concat (segments db cs r) ++ summary_lines
  /\ Forall2 (fun c t =>
       attributes_before_indexes t /\
       forall q, q ∈ calls t -> configured_id c = Some (request_collection q))
       cs (segments db cs r)
  /\ (NoDup (omap configured_id cs) ->
      attributes_before_indexes_per_collection (trace (run_with db cs r))).
Proof.
  split; [|split].
  - by rewrite run_with_eq, setup_collections_segments.
  - apply segments_ordered.
  - intros Hnd i j qi qa Hi Hqi Hj Hqa Hsame.
    rewrite run_with_eq in Hi, Hj. cbn [emit trace] in Hi, Hj.
    destruct i as [|i]; [done|]. destruct j as [|j]; [done|].
    cbn [lookup list_lookup] in Hi, Hj.
    set (t := trace (setup_collections db cs r)) in *.
    assert (Hlen : forall k q, (t ++ summary_lines) !! k = Some (Call q) ->
                               t !! k = Some (Call q)).
    { intros k q Hk. apply lookup_app_Some in Hk as [Hk|[_ Hk]]; [done|].
      exfalso. apply list_elem_of_lookup_2 in Hk.
      unfold summary_lines in Hk.
      repeat (apply elem_of_cons in Hk as [Hk|Hk]; [discriminate Hk|]).
      by apply elem_of_nil in Hk. }
    apply Hlen in Hi, Hj.
    pose proof (setup_collections_ordered db cs r Hnd _ _ _ _ Hi Hqi Hj Hqa
                  Hsame). lia.
Qed.

Lemma attributes_precede_indexes_witness :
  NoDup (omap configured_id (collections test_env test_unique)) /\
  attributes_before_indexes_per_collection
    (trace (run_with (Some "arbantv") (collections test_env test_unique)
              [Resolved; Rejected "Attribute already exists"])).
Proof.
  assert (Hnd : NoDup (omap configured_id (collections test_env test_unique)))
    by (apply (bool_decide_unpack _); vm_compute; exact I).
  split; [exact Hnd|].
  exact (proj2 (proj2 (attributes_precede_indexes (Databases0:=scripted)
                         (Some "arbantv")
                         (collections test_env test_unique)
                         [Resolved; Rejected "Attribute already exists"]))
           Hnd).
Defined.

(** ** Collections that cannot be set up *)





(** C7.  A collection whose identifier is missing or empty gets the
    configuration error line and no remote call, and leaves the service
    as it was.  The run over a list that contains it is the run over the
    list without it, with these two lines added: the same calls, the same
    delays, the same final state of the service, the same exit code 0. *)
Theorem unconfigured_collection_is_skipped
    {R : Type} `{!Databases R} (db : env_value) (cs1 : list collection)
    (c : collection) (cs2 : list collection) (r : R) :
  env_missing (coll_id c) = true ->
  let x := run_with db (cs1 ++ c :: cs2) r in
  let x' := run_with db (cs1 ++ cs2) r in
  (forall r', setup_collection db c r' =
              Result [Log (log_collection c); Log (log_id_missing c)] r'
                (Returned tt))
  /\ (exists t1 t2,
        trace x = t1 ++ [Log (log_collection c); Log (log_id_missing c)] ++ t2
        /\ trace x' = t1 ++ t2)
  /\ calls (trace x) = calls (trace x')
  /\ delays (trace x) = delays (trace x')
  /\ remote x = remote x'
  /\ exit_code x = Some 0 /\ exit_code x' = Some 0.
Proof.
  intros Hid x x'.
  assert (Hc : forall r', setup_collection db c r' =
                 Result [Log (log_collection c); Log (log_id_missing c)] r'
                   (Returned tt))
    by (intros r'; by apply setup_collection_unconfigured).
  set (y1 := setup_collections db cs1 r).
  set (y2 := setup_collections db cs2 (remote y1)).
  assert (Hx : x = Result
            (Log "[START] Starting ArbanTv database attributes setup..." ::
             (trace y1 ++ [Log (log_collection c); Log (log_id_missing c)] ++
              trace y2) ++ summary_lines) (remote y2) (Exited 0)).
  { unfold x. rewrite run_with_eq, setup_collections_app.
    rewrite setup_collections_cons, Hc. reflexivity. }
  assert (Hx' : x' = Result
            (Log "[START] Starting ArbanTv database attributes setup..." ::
             (trace y1 ++ trace y2) ++ summary_lines) (remote y2) (Exited 0)).
  { unfold x'. rewrite run_with_eq, setup_collections_app. reflexivity. }
  rewrite Hx, Hx'. cbn [emit trace remote]. repeat split; try done.
  - exists (Log "[START] Starting ArbanTv database attributes setup..." ::
            trace y1), (trace y2 ++ summary_lines).
    by rewrite <- !app_assoc.
  - change (Log ?l :: ?t) with ([Log l] ++ t). by rewrite !calls_app.
  - change (Log ?l :: ?t) with ([Log l] ++ t). by rewrite !delays_app.
Qed.

Lemma unconfigured_collection_is_skipped_witness :
  let creators := {| coll_id := Some "creators"; coll_name := "unique()";
                     coll_attributes := creators_attributes;
                     coll_indexes := Some creators_indexes |} in
  let videos := {| coll_id := Some ""; coll_name := "unique()";
                   coll_attributes := videos_attributes;
                   coll_indexes := Some videos_indexes |} in
  let tags := {| coll_id := Some "tags"; coll_name := "unique()";
                 coll_attributes := tags_attributes;
                 coll_indexes := Some tags_indexes |} in
  env_missing (coll_id videos) = true /\
  calls (trace (run_with (Some "arbantv") ([creators] ++ videos :: [tags])
                  [Resolved; Rejected "Server Error"])) =
  calls (trace (run_with (Some "arbantv") ([creators] ++ [tags])
                  [Resolved; Rejected "Server Error"])).
Proof.
  intros creators videos tags. split; [reflexivity|].
  destruct (unconfigured_collection_is_skipped (Databases0:=scripted)
              (Some "arbantv")
              [creators] videos [tags] [Resolved; Rejected "Server Error"]
              eq_refl)
    as (_ & _ & Hcalls & _).
  exact Hcalls.
Defined.

(** ** Attributes that cannot be created *)

Lemma attribute_request_unhandled db cid a :
  handled_type (attr_type a) = false -> attribute_request db cid a = None.
Proof.
  intros Hk. destruct (attribute_request db cid a) as [q|] eqn:Ha; [|done].
  assert (Hs : is_Some (attribute_request db cid a)) by (by rewrite Ha).
  apply attribute_request_handled in Hs. congruence.
Qed.

(** C8.  In a collection that was found, when the create call of an
    attribute is rejected with a message that is not a conflict, the error
    line is logged and the run goes on: the create call of every later
    attribute of a handled kind is issued, then every create-index call of
    the collection; the collection body returns normally, the loop goes on
    with the next collections and the run exits with code 0. *)
Theorem failed_attribute_does_not_abort
    {R : Type} `{!Databases R} (db : env_value) (c : collection)
    (l1 : list attribute) (a : attribute) (l2 : list attribute)
    (q : request) (cs : list collection) (r : R) (message : string) :
  env_missing (coll_id c) = false ->
  coll_attributes c = l1 ++ a :: l2 ->
  let cid := env_text (coll_id c) in
  (respond r (GetCollection db cid)).2 = Resolved ->
  let r1 := remote (for_of l1 (create_attribute db cid)
                      (respond r (GetCollection db cid)).1) in
  attribute_request db cid a = Some q ->
  (respond r1 q).2 = Rejected message ->
  includes message "already exists" = false ->
  let x := setup_collection db c r in
  (exists t1 t2,
     trace x = t1 ++ [Call q; Log (log_attr_error a message)] ++ t2
     /\ attribute_calls t2 = omap (attribute_request db cid) l2
     /\ index_calls t2 = collection_index_requests db c)
  /\ out x = Returned tt
  /\ trace (setup_collections db (c :: cs) r) =
     trace x ++ trace (setup_collections db cs (remote x))
  /\ exit_code (run_with db (c :: cs) r) = Some 0.
Proof.
  intros Hid Hattrs cid Hget r1 Ha Hq Hm x.
  split; [|split; [|split]].
  - unfold x. rewrite setup_collection_found by done. cbn [emit trace].
    fold cid. rewrite Hattrs.
    set (r0 := (respond r (GetCollection db cid)).1) in *.
    rewrite for_of_app by apply create_attribute_returns.
    cbn [emit trace remote]. fold r1.
    rewrite for_of_cons by apply create_attribute_returns.
    rewrite (create_attribute_failed _ _ _ _ _ _ Ha Hq Hm).
    cbn [emit trace remote].
    set (y2 := for_of l2 (create_attribute db cid) (respond r1 q).1).
    set (y3 := create_indexes db cid c _).
    exists ([Log (log_collection c); Call (GetCollection db cid);
             Log (log_collection_found c); Log (log_process c)] ++
            trace (for_of l1 (create_attribute db cid) r0)),
           (trace y2 ++ [Log log_wait; Delay 3000] ++ trace y3).
    split; [by rewrite <- !app_assoc|].
    rewrite !attribute_calls_app, !index_calls_app.
    unfold attribute_calls, index_calls, y2, y3.
    rewrite attributes_loop_calls, create_indexes_calls.
    rewrite (proj1 (attribute_requests_filter _ _ _)).
    rewrite (proj2 (attribute_requests_filter _ _ _)).
    rewrite (proj1 (index_requests_filter _ _ _)).
    rewrite (proj2 (index_requests_filter _ _ _)).
    split; [apply app_nil_r|done].
  - apply setup_collection_returns.
  - by rewrite setup_collections_cons.
  - apply run_with_exit_code.
Qed.

Lemma failed_attribute_does_not_abort_witness :
  let c := {| coll_id := Some "tags"; coll_name := "unique()";
              coll_attributes := tags_attributes;
              coll_indexes := Some tags_indexes |} in
  includes "Server Error" "already exists" = false /\
  exists t1 t2,
    trace (setup_collection (Some "arbantv") c
             [Resolved; Rejected "Server Error"]) =
    t1 ++
    [ Call (CreateStringAttribute (Some "arbantv") "tags" "name" (JNum 50)
              (JBool true) JNull (JBool false));
      Log "     [ERROR] Failed to create attribute name: Server Error" ] ++
    t2
    /\ attribute_calls t2 =
       [ CreateIntegerAttribute (Some "arbantv") "tags" "count" (JBool true)
           JNull JNull JNull (JBool false) ]
    /\ index_calls t2 =
       [ CreateIndex (Some "arbantv") "tags" "name_index" "key" ["name"] [] ].
Proof.
  intros c. split; [reflexivity|].
  exact (proj1 (failed_attribute_does_not_abort (Databases0:=scripted)
                  (Some "arbantv") c []
                  (attr "name" "string" (JNum 50) (JBool true) JUndefined
                     JUndefined)
                  [attr "count" "integer" JUndefined (JBool true) (JNum 0)
                     JUndefined]
                  _ [] [Resolved; Rejected "Server Error"] "Server Error"
                  eq_refl eq_refl eq_refl eq_refl eq_refl eq_refl)).
Defined.

(** C10.  An attribute descriptor whose kind is none of [string],
    [integer], [double], [boolean] and [datetime] gets the warning line
    and nothing else: no remote call, no delay, the service untouched; and
    the loop goes on with the next descriptor of the collection. *)
Theorem unknown_kind_is_skipped
    {R : Type} `{!Databases R} (db : env_value) (cid : string) (a : attribute)
    (l : list attribute) (r : R) :
  handled_type (attr_type a) = false ->
  let y := for_of l (create_attribute db cid) r in
  create_attribute db cid a r = Result [Log (log_attr_warn a)] r (Returned tt)
  /\ calls (trace (create_attribute db cid a r)) = []
  /\ delays (trace (create_attribute db cid a r)) = []
  /\ for_of (a :: l) (create_attribute db cid) r =
     Result (Log (log_attr_warn a) :: trace y) (remote y) (Returned tt).
Proof.
  intros Hk y. apply (attribute_request_unhandled db cid) in Hk.
  rewrite for_of_cons by apply create_attribute_returns.
  rewrite (create_attribute_unknown _ _ _ _ Hk). cbn [emit trace remote].
  repeat split. fold y. f_equal. apply attributes_loop_returns.
Qed.

Lemma unknown_kind_is_skipped_witness :
  let a := attr "role" "enum" JUndefined (JBool true) JUndefined JUndefined in
  let next := attr "count" "integer" JUndefined (JBool true) (JNum 0)
                JUndefined in
  handled_type (attr_type a) = false /\
  trace (for_of [a; next] (create_attribute (Some "arbantv") "tags")
           [Resolved]) =
  [ Log "     [WARN] Unknown attribute type: enum for role";
    Call (CreateIntegerAttribute (Some "arbantv") "tags" "count" (JBool true)
            JNull JNull JNull (JBool false));
    Log "     [OK] Created attribute: count (integer)";
    Delay 100 ].
Proof.
  intros a next. split; [reflexivity|].
  destruct (unknown_kind_is_skipped (Databases0:=scripted)
              (Some "arbantv") "tags" a [next]
              [Resolved] eq_refl) as (_ & _ & _ & ->).
  reflexivity.
Defined.

(** ** Delays *)

(** C9 as the specification states it fails: the first attribute of
    the creators collection is rejected as already existing, and the next
    create call follows with no delay in between. *)
Lemma skipped_attempt_is_not_delayed :
  let a := attr "user_id" "string" (JNum 255) (JBool true) JUndefined
             JUndefined in
  let next := attr "channel_name" "string" (JNum 256) (JBool true) JUndefined
                JUndefined in
  let t := trace (for_of [a; next]
                    (create_attribute (Some "arbantv") "creators")
                    [Rejected "Attribute already exists"]) in
  t = [ Call (CreateStringAttribute (Some "arbantv") "creators" "user_id"
                (JNum 255) (JBool true) JNull (JBool false));
        Log "     [SKIP] Attribute user_id already exists, skipping...";
        Call (CreateStringAttribute (Some "arbantv") "creators"
                "channel_name" (JNum 256) (JBool true) JNull (JBool false));
        Log "     [OK] Created attribute: channel_name (string)";
        Delay 100 ]
  /\ attribute_attempts_delayed t = false
  /\ attribute_attempts_delayed
       (trace (main test_env test_unique
                 [Resolved; Rejected "Attribute already exists"])) = false
  /\ attribute_attempts_delayed
       (trace (main test_env test_unique [Resolved; Rejected "Server Error"]))
     = false.
Proof. repeat split; vm_compute; reflexivity. Qed.

(** When every call succeeds, every attempt is followed by its delay. *)
Example created_attempts_are_delayed :
  attribute_attempts_delayed (trace (main test_env test_unique tt)) = true.
Proof. vm_compute. reflexivity. Qed.

(** C9, as amended.  A create-attribute call that succeeds is followed by
    its report and a delay of 100 ms; one that is rejected, as a conflict
    or otherwise, is followed by its report and no delay.  A create-index
    call that succeeds is followed by its report and a delay of 200 ms; one
    that is rejected is followed by no delay.  In a collection that was
    found, a delay of 3000 ms stands between the attribute loop, which
    holds all create-attribute calls and no create-index call, and the
    index loop, which holds all create-index calls and no create-attribute
    call. *)
Theorem delays_follow_created
    {R : Type} `{!Databases R} (db : env_value) (c : collection)
    (a : attribute) (i : index) (r : R) :
  let cid := env_text (coll_id c) in
  (forall q,
     attribute_request db cid a = Some q ->
     trace (create_attribute db cid a r) =
     Call q ::
     match (respond r q).2 with
     | Resolved => [Log (log_attr_ok a); Delay 100]
     | Rejected message =>
         [Log (if includes message "already exists" then log_attr_skip a
               else log_attr_error a message)]
     end)
  /\ trace (create_index db cid i r) =
     Call (index_request db cid i) ::
     match (respond r (index_request db cid i)).2 with
     | Resolved => [Log (log_index_ok i); Delay 200]
     | Rejected message =>
         [Log (if includes message "already exists" then log_index_skip i
               else log_index_error i message)]
     end
  /\ (env_missing (coll_id c) = false ->
      (respond r (GetCollection db cid)).2 = Resolved ->
      let x := for_of (coll_attributes c) (create_attribute db cid)
                 (respond r (GetCollection db cid)).1 in
      let y := create_indexes db cid c (remote x) in
      trace (setup_collection db c r) =
        [ Log (log_collection c); Call (GetCollection db cid);
          Log (log_collection_found c); Log (log_process c) ] ++
        trace x ++ [Log log_wait; Delay 3000] ++ trace y
      /\ attribute_calls (trace x) = collection_attribute_requests db c
      /\ index_calls (trace x) = []
      /\ attribute_calls (trace y) = []
      /\ index_calls (trace y) = collection_index_requests db c).
Proof.
  intros cid. split; [|split].
  - intros q Ha.
    destruct (create_attribute_step db cid a r)
      as [Hn|q' Ha' Hq|q' message Ha' Hq Hm|q' message Ha' Hq Hm];
      [congruence|..]; assert (q' = q) as -> by congruence;
      rewrite Hq; cbn [emit trace]; by rewrite ?Hm.
  - destruct (create_index_step db cid i r)
      as [Hq|message Hq Hm|message Hq Hm];
      rewrite Hq; cbn [emit trace]; by rewrite ?Hm.
  - intros Hid Hq x y. split; [|split; [|split; [|split]]].
    + by rewrite setup_collection_found.
    + unfold attribute_calls, x. rewrite attributes_loop_calls.
      apply attribute_requests_filter.
    + unfold index_calls, x. rewrite attributes_loop_calls.
      apply attribute_requests_filter.
    + unfold attribute_calls, y. rewrite create_indexes_calls.
      apply index_requests_filter.
    + unfold index_calls, y. rewrite create_indexes_calls.
      apply index_requests_filter.
Qed.

Lemma delays_follow_created_witness :
  let c := {| coll_id := Some "tags"; coll_name := "unique()";
              coll_attributes := tags_attributes;
              coll_indexes := Some tags_indexes |} in
  env_missing (coll_id c) = false /\
  delays (trace (setup_collection (Some "arbantv") c
                   [Resolved; Rejected "Attribute already exists"])) =
  [100; 3000; 200].
Proof.
  intros c. split; [reflexivity|].
  destruct (delays_follow_created (Databases0:=scripted) (Some "arbantv") c
              (attr "name" "string" (JNum 50) (JBool true) JUndefined
                 JUndefined)
              (idx "name_index" "key" ["name"] (JBool true))
              [Resolved; Rejected "Attribute already exists"])
    as (_ & _ & Hc).
  destruct (Hc eq_refl eq_refl) as (-> & _). reflexivity.
Defined.

(** ** Arguments of the create calls *)

(** C5.  The default of a descriptor reaches the service only when it is
    truthy: the request carries [attr.default || null].  The declared
    attribute [subscribers] has default [0] and [is_verified] has default
    [false]; the create calls issued for them carry [null]. *)
Theorem falsy_default_is_dropped (db : env_value) (cid : string) :
  let subscribers := attr "subscribers" "integer" JUndefined (JBool true)
                       (JNum 0) JUndefined in
  let is_verified := attr "is_verified" "boolean" JUndefined (JBool true)
                       (JBool false) JUndefined in
  subscribers ∈ creators_attributes /\ is_verified ∈ creators_attributes
  /\ attribute_request db cid subscribers =
     Some (CreateIntegerAttribute db cid "subscribers" (JBool true) JNull
             JNull JNull (JBool false))
  /\ attribute_request db cid is_verified =
     Some (CreateBooleanAttribute db cid "is_verified" (JBool true) JNull
             (JBool false))
  /\ (forall a q,
        attribute_request db cid a = Some q ->
        request_default q =
        Some (if truthy (attr_default a) then attr_default a else JNull))
  /\ Call (CreateIntegerAttribute (Some "arbantv") "creators" "subscribers"
             (JBool true) JNull JNull JNull (JBool false))
     ∈ trace (main test_env test_unique tt).
Proof.
  intros subscribers is_verified.
  split; [|split; [|split; [|split; [|split]]]].
  - by apply (list_elem_of_lookup_2 _ 6).
  - by apply (list_elem_of_lookup_2 _ 8).
  - reflexivity.
  - reflexivity.
  - intros a q. unfold attribute_request, js_or.
    repeat match goal with
           | |- context [String.eqb ?x ?y] => destruct (String.eqb x y)
           end; intros Hq; inversion Hq; reflexivity.
  - apply (list_elem_of_lookup_2 _ 23). vm_compute. reflexivity.
Qed.

(** C6.  The create-index call carries the key, the [type] field, the
    attribute keys and the sort orders (none when the descriptor has
    none) of its descriptor.  The [unique] field of a descriptor is never
    read: the declared index [handle_index], which has [unique: true] and
    [type: "key"], is requested as an ordinary key index. *)
Theorem unique_flag_is_ignored (db : env_value) (cid : string) :
  let handle_index := idx "handle_index" "key" ["handle"] (JBool true) in
  handle_index ∈ creators_indexes
  /\ index_unique handle_index = JBool true
  /\ index_request db cid handle_index =
     CreateIndex db cid "handle_index" "key" ["handle"] []
  /\ (forall key type attributes orders unique unique',
        index_request db cid
          {| index_key := key; index_type := type;
             index_attributes := attributes; index_orders := orders;
             index_unique := unique |} =
        index_request db cid
          {| index_key := key; index_type := type;
             index_attributes := attributes; index_orders := orders;
             index_unique := unique' |})
  /\ (forall i,
        index_request db cid i =
        CreateIndex db cid (index_key i) (index_type i) (index_attributes i)
          (default [] (index_orders i)))
  /\ Call (CreateIndex (Some "arbantv") "creators" "handle_index" "key"
             ["handle"] [])
     ∈ trace (main test_env test_unique tt).
Proof.
  intros handle_index. split; [|split; [|split; [|split; [|split]]]];
    try reflexivity.
  - by apply (list_elem_of_lookup_2 _ 1).
  - apply (list_elem_of_lookup_2 _ 38). vm_compute. reflexivity.
Qed.

(** * Further properties of the script *)

(** ** The shape of every trace *)

(** Whatever holds of the empty trace, of single lines and delays and of
    reported calls, and is kept by concatenation, holds of the trace of
    every run. *)
Section Shape.
Context {R : Type} `{!Databases R}.
Variable P : list event -> Prop.
Hypothesis P_nil : P [].
Hypothesis P_app : forall t1 t2, P t1 -> P t2 -> P (t1 ++ t2).
Hypothesis P_log : forall line, P [Log line].
Hypothesis P_delay : forall ms, P [Delay ms].
Hypothesis P_call : forall q line, report_of q line -> P [Call q; Log line].
Implicit Types (r : R) (db : env_value) (cid : string) (c : collection)
  (cs : list collection).

Lemma closed_cons_log line t : P t -> P (Log line :: t).
Proof. intros Ht. apply (P_app [Log line] t); [apply P_log|exact Ht]. Qed.

Lemma for_of_closed {A} (body : A -> M R unit) :
  (forall x r, out (body x r) = Returned tt) ->
  (forall x r, P (trace (body x r))) ->
  forall l r, P (trace (for_of l body r)).
Proof.
  intros Hret Hbody. induction l as [|x l IH]; intros r; [exact P_nil|].
  rewrite for_of_cons by apply Hret. cbn [trace]. by apply P_app.
Qed.

Lemma create_attribute_closed db cid a r :
  P (trace (create_attribute db cid a r)).
Proof.
  destruct (create_attribute_step db cid a r)
    as [Ha|q Ha Hq|q message Ha Hq Hm|q message Ha Hq Hm]; cbn [trace].
  - apply P_log.
  - apply (P_app [Call q; Log (log_attr_ok a)] [Delay 100]);
      [apply P_call; by econstructor|apply P_delay].
  - apply P_call. by econstructor.
  - apply P_call. by econstructor.
Qed.

Lemma create_index_closed db cid i r : P (trace (create_index db cid i r)).
Proof.
  destruct (create_index_step db cid i r)
    as [Hq|message Hq Hm|message Hq Hm]; cbn [trace].
  - apply (P_app [Call (index_request db cid i); Log (log_index_ok i)]
             [Delay 200]); [apply P_call; constructor|apply P_delay].
  - apply P_call. constructor.
  - apply P_call. constructor.
Qed.

Lemma create_indexes_closed db cid c r :
  P (trace (create_indexes db cid c r)).
Proof.
  unfold create_indexes. destruct (coll_indexes c) as [[|i l]|];
    try exact P_nil.
  rewrite (bind_returned (console_log _) _ r tt) by reflexivity.
  cbn [emit console_log trace remote]. apply closed_cons_log.
  apply for_of_closed; [apply create_index_returns|apply create_index_closed].
Qed.

Lemma setup_collection_closed db c r : P (trace (setup_collection db c r)).
Proof.
  destruct (env_missing (coll_id c)) eqn:Hid.
  { rewrite setup_collection_unconfigured by done. cbn [trace].
    apply closed_cons_log, P_log. }
  destruct (respond r (GetCollection db (env_text (coll_id c)))).2
    as [|message] eqn:Hq.
  - rewrite setup_collection_found by done. cbn [trace].
    apply closed_cons_log.
    apply (P_app [Call (GetCollection db (env_text (coll_id c)));
                  Log (log_collection_found c)]);
      [apply P_call; constructor|].
    apply closed_cons_log. apply P_app.
    { apply for_of_closed;
        [apply create_attribute_returns|apply create_attribute_closed]. }
    apply closed_cons_log. apply (P_app [Delay 3000]); [apply P_delay|].
    apply create_indexes_closed.
  - rewrite (setup_collection_rejected _ _ _ message) by done. cbn [trace].
    apply closed_cons_log. apply P_call.
    destruct (includes message "not found"); constructor.
Qed.

Lemma setup_collections_closed db cs r :
  P (trace (setup_collections db cs r)).
Proof.
  apply for_of_closed;
    [apply setup_collection_returns|apply setup_collection_closed].
Qed.

Lemma run_with_closed db cs r : P (trace (run_with db cs r)).
Proof.
  rewrite run_with_eq. cbn [trace]. apply closed_cons_log. apply P_app.
  - apply setup_collections_closed.
  - unfold summary_lines. repeat apply closed_cons_log. exact P_nil.
Qed.
End Shape.

Lemma reported_app (t1 t2 : list event) :
  reported t1 -> reported t2 -> reported (t1 ++ t2).
Proof.
  intros H1 H2. induction H1 as [|line t _ IH|ms t _ IH|q line t Hq _ IH];
    cbn [app]; [done| | |]; by constructor.
Qed.

Lemma reported_no_console_error (t : list event) (line : string) :
  reported t -> LogError line ∉ t.
Proof.
  intros Ht. induction Ht as [|l t _ IH|ms t _ IH|q l t Hq _ IH];
    rewrite ?not_elem_of_cons; [apply not_elem_of_nil|..]; by repeat split.
Qed.

Section Outcomes.
Context {R : Type} `{!Databases R}.
Implicit Types (r : R) (db : env_value) (cid : string) (c : collection)
  (cs : list collection).

Lemma answered_app r (t1 t2 : list event) :
  answered r t1 -> answered (after r (calls t1)) t2 -> answered r (t1 ++ t2).
Proof.
  intros H1. induction H1 as [r|r line t _ IH|r ms t _ IH|r q line t Hq _ IH];
    intros H2; cbn [app]; [done|..]; constructor; try done; by apply IH.
Qed.

Lemma answered_logs r (lines : list string) :
  answered r (Log <$> lines).
Proof. induction lines; cbn [fmap list_fmap]; by constructor. Qed.

Lemma answered_create_attribute db cid a r :
  answered r (trace (create_attribute db cid a r)).
Proof.
  destruct (create_attribute_step db cid a r)
    as [Ha|q Ha Hq|q message Ha Hq Hm|q message Ha Hq Hm]; cbn [trace].
  - repeat constructor.
  - constructor; [|repeat constructor]. rewrite Hq. by econstructor.
  - constructor; [|constructor]. rewrite Hq.
    pose proof (outcome_attr_rejected db cid a q message Ha) as Ho.
    by rewrite Hm in Ho.
  - constructor; [|constructor]. rewrite Hq.
    pose proof (outcome_attr_rejected db cid a q message Ha) as Ho.
    by rewrite Hm in Ho.
Qed.

Lemma answered_create_index db cid i r :
  answered r (trace (create_index db cid i r)).
Proof.
  destruct (create_index_step db cid i r)
    as [Hq|message Hq Hm|message Hq Hm]; cbn [trace].
  - constructor; [|repeat constructor]. rewrite Hq. constructor.
  - constructor; [|constructor]. rewrite Hq.
    pose proof (outcome_index_rejected db cid i message) as Ho.
    by rewrite Hm in Ho.
  - constructor; [|constructor]. rewrite Hq.
    pose proof (outcome_index_rejected db cid i message) as Ho.
    by rewrite Hm in Ho.
Qed.

Lemma answered_for_of {A} (body : A -> M R unit) (l : list A) :
  (forall x r, out (body x r) = Returned tt) ->
  (forall x, tracks (body x)) ->
  (forall x r, answered r (trace (body x r))) ->
  forall r, answered r (trace (for_of l body r)).
Proof.
  intros Hret Htracks Hbody. induction l as [|x l IH]; intros r;
    [constructor|].
  rewrite for_of_cons by apply Hret. cbn [trace].
  apply answered_app; [apply Hbody|]. rewrite Htracks. apply IH.
Qed.

Lemma answered_create_indexes db cid c r :
  answered r (trace (create_indexes db cid c r)).
Proof.
  unfold create_indexes.
  destruct (coll_indexes c) as [[|i l]|];
    [apply answered_nil| |apply answered_nil].
  rewrite (bind_returned (console_log _) _ r tt) by reflexivity.
  cbn [emit console_log trace remote app]. apply answered_log.
  apply answered_for_of;
    [apply create_index_returns|apply tracks_create_index
    |apply answered_create_index].
Qed.

Lemma answered_setup_collection db c r :
  answered r (trace (setup_collection db c r)).
Proof.
  destruct (env_missing (coll_id c)) eqn:Hid.
  { rewrite setup_collection_unconfigured by done. repeat constructor. }
  destruct (respond r (GetCollection db (env_text (coll_id c)))).2
    as [|message] eqn:Hq.
  - rewrite setup_collection_found by done. cbn [trace app].
    constructor. constructor; [rewrite Hq; constructor|]. constructor.
    apply answered_app.
    { apply answered_for_of;
        [apply create_attribute_returns|apply tracks_create_attribute
        |apply answered_create_attribute]. }
    rewrite (tracks_for_of _ _ (tracks_create_attribute db _)).
    cbn [app]. constructor. constructor. apply answered_create_indexes.
  - rewrite (setup_collection_rejected _ _ _ message) by done. cbn [trace].
    constructor. constructor; [|constructor]. rewrite Hq. constructor.
Qed.

Lemma answered_setup_collections db cs r :
  answered r (trace (setup_collections db cs r)).
Proof.
  apply answered_for_of;
    [apply setup_collection_returns|apply tracks_setup_collection
    |apply answered_setup_collection].
Qed.
End Outcomes.

(** X1.  For descriptors whose collection names and keys contain no
    percent sign, and whatever the service answers, the trace of a run
    holds nothing but console lines, delays and remote calls, and every
    remote call is followed at once by the line that reports the answer
    the service gave to that call: the OK line when it resolved, and when
    it was rejected the SKIP or not-found line if the message contains the
    tested words and the ERROR line with the message otherwise. *)
Theorem every_call_is_followed_by_its_outcome
    {R : Type} `{!Databases R} (db : env_value) (cs : list collection) (r : R) :
  forallb plain cs = true ->
  answered r (trace (run_with db cs r)).
Proof.
  intros _. rewrite run_with_eq. cbn [trace]. constructor.
  apply answered_app; [apply answered_setup_collections|].
  unfold summary_lines. repeat constructor.
Qed.

Lemma every_call_is_followed_by_its_outcome_witness :
  forallb plain (collections test_env test_unique) = true /\
  answered [Resolved; Rejected "Attribute already exists";
            Rejected "Server Error"]
    (trace (run_with (Some "arbantv") (collections test_env test_unique)
              [Resolved; Rejected "Attribute already exists";
               Rejected "Server Error"])).
Proof.
  split; [reflexivity|].
  exact (every_call_is_followed_by_its_outcome (Databases0:=scripted)
           (Some "arbantv") (collections test_env test_unique)
           [Resolved; Rejected "Attribute already exists";
            Rejected "Server Error"] eq_refl).
Defined.

(** X2.  A run never fails: whatever the service answers, [setupDatabase]
    returns normally, nothing is written to [console.error], the last line
    is the success line and the process exits with code 0. *)
Theorem run_never_fails
    {R : Type} `{!Databases R} (db : env_value) (cs : list collection) (r : R) :
  let x := run_with db cs r in
  out (setupDatabase_with db cs r) = Returned tt
  /\ (forall line, LogError line ∉ trace x)
  /\ head (trace x) =
     Some (Log "[START] Starting ArbanTv database attributes setup...")
  /\ last (trace x) = Some (Log "Setup completed successfully")
  /\ exit_code x = Some 0.
Proof.
  intros x. split; [by rewrite setupDatabase_with_eq|].
  split.
  { intros line. apply reported_no_console_error. unfold x.
    apply run_with_closed.
    - constructor.
    - apply reported_app.
    - intros l. repeat constructor.
    - intros ms. repeat constructor.
    - intros q l Hq. by repeat constructor. }
  unfold x. rewrite run_with_eq. cbn [trace]. split; [reflexivity|].
  split; [|reflexivity].
  change summary_lines
    with (take 7 summary_lines ++ [Log "Setup completed successfully"]).
  by rewrite app_comm_cons, app_assoc, last_snoc.
Qed.

(** ** Collections and indexes that fail *)

(** X3.  When the lookup of a collection is rejected with a message that
    does not say [not found], the general error line is logged with the
    message; the collection gets no create call and no delay, and the loop
    goes on with the remaining collections. *)
Theorem collection_error_is_logged
    {R : Type} `{!Databases R} (db : env_value) (c : collection)
    (cs : list collection) (r : R) (message : string) :
  env_missing (coll_id c) = false ->
  (respond r (GetCollection db (env_text (coll_id c)))).2 = Rejected message ->
  includes message "not found" = false ->
  let t := trace (setup_collection db c r) in
  let rest := setup_collections db cs
                (respond r (GetCollection db (env_text (coll_id c)))).1 in
  t = [ Log (log_collection c);
        Call (GetCollection db (env_text (coll_id c)));
        Log (log_collection_error c message) ]
  /\ attribute_calls t = [] /\ index_calls t = [] /\ delays t = []
  /\ setup_collections db (c :: cs) r =
     Result (t ++ trace rest) (remote rest) (Returned tt).
Proof.
  intros Hid Hq Hm t rest. unfold t.
  rewrite setup_collections_cons.
  rewrite (setup_collection_rejected _ _ _ message) by done.
  rewrite Hm. cbn [emit trace remote]. by repeat split.
Qed.

Lemma collection_error_is_logged_witness :
  let c := {| coll_id := Some "tags"; coll_name := "unique()";
              coll_attributes := tags_attributes;
              coll_indexes := Some tags_indexes |} in
  includes "fetch failed" "not found" = false /\
  trace (setup_collection (Some "arbantv") c [Rejected "fetch failed"]) =
  [ Log (log_collection c);
    Call (GetCollection (Some "arbantv") "tags");
    Log "   [ERROR] Error setting up collection unique(): fetch failed" ].
Proof.
  intros c. split; [reflexivity|].
  exact (proj1 (collection_error_is_logged (Databases0:=scripted)
                  (Some "arbantv") c [] [Rejected "fetch failed"]
                  "fetch failed" eq_refl eq_refl eq_refl)).
Defined.

(** X4.  Wherever an index stands in the list, when its create call is
    rejected the skip line (for a conflict) or the error line (otherwise)
    is logged with no delay, and the create call of every later index is
    still issued. *)
Theorem rejected_index_does_not_abort
    {R : Type} `{!Databases R} (db : env_value) (cid : string)
    (l1 : list index) (i : index) (l2 : list index) (r : R)
    (message : string) :
  let x := for_of l1 (create_index db cid) r in
  let q := index_request db cid i in
  (respond (remote x) q).2 = Rejected message ->
  let y := for_of l2 (create_index db cid) (respond (remote x) q).1 in
  for_of (l1 ++ i :: l2) (create_index db cid) r =
  Result
    (trace x ++
     [Call q;
      Log (if includes message "already exists" then log_index_skip i
           else log_index_error i message)] ++
     trace y)
    (remote y) (Returned tt)
  /\ calls (trace y) = index_request db cid <$> l2.
Proof.
  intros x q Hq y. split; [|apply index_loop_calls].
  assert (Hstep : create_index db cid i (remote x) =
                  Result
                    [Call q;
                     Log (if includes message "already exists"
                          then log_index_skip i
                          else log_index_error i message)]
                    (respond (remote x) q).1 (Returned tt)).
  { destruct (includes message "already exists") eqn:Hm.
    - by apply (create_index_conflict _ _ _ _ message).
    - by apply (create_index_failed _ _ _ _ message). }
  rewrite for_of_app by apply create_index_returns. fold x.
  rewrite for_of_cons by apply create_index_returns.
  rewrite Hstep. cbn [trace remote]. fold y.
  by rewrite (index_loop_returns db cid l2 _ : out y = _).
Qed.

Lemma rejected_index_does_not_abort_witness :
  trace (for_of videos_indexes (create_index (Some "arbantv") "videos")
           [Rejected "Unknown attribute: creator_id"]) =
  [ Call (CreateIndex (Some "arbantv") "videos" "creator_index" "key"
            ["creator_id"] []);
    Log "     [ERROR] Failed to create index creator_index: Unknown attribute: creator_id";
    Call (CreateIndex (Some "arbantv") "videos" "status_genre_index" "key"
            ["status"; "genre"] []);
    Log "     [OK] Created index: status_genre_index";
    Delay 200 ].
Proof.
  destruct (rejected_index_does_not_abort (Databases0:=scripted)
              (Some "arbantv") "videos" []
              (idx "creator_index" "key" ["creator_id"] JUndefined)
              [idx "status_genre_index" "key" ["status"; "genre"] JUndefined]
              [Rejected "Unknown attribute: creator_id"]
              "Unknown attribute: creator_id" eq_refl) as [H _].
  cbv zeta in H. unfold videos_indexes.
  change [idx "creator_index" "key" ["creator_id"] JUndefined;
          idx "status_genre_index" "key" ["status"; "genre"] JUndefined]
    with ([] ++ idx "creator_index" "key" ["creator_id"] JUndefined ::
          [idx "status_genre_index" "key" ["status"; "genre"] JUndefined]).
  rewrite H. reflexivity.
Defined.

(** ** Which requests a run makes *)

Section Requests.
Context {R : Type} `{!Databases R}.
Implicit Types (r : R) (db : env_value) (c : collection)
  (cs : list collection).

Lemma setup_collection_calls db c r :
  calls (trace (setup_collection db c r)) =
  if env_missing (coll_id c) then []
  else
    match (respond r (GetCollection db (env_text (coll_id c)))).2 with
    | Resolved =>
        GetCollection db (env_text (coll_id c)) ::
        collection_attribute_requests db c ++ collection_index_requests db c
    | Rejected _ => [GetCollection db (env_text (coll_id c))]
    end.
Proof.
  destruct (env_missing (coll_id c)) eqn:Hid.
  { by rewrite setup_collection_unconfigured. }
  destruct (respond r (GetCollection db (env_text (coll_id c)))).2
    as [|message] eqn:Hq.
  - by apply setup_collection_found_calls.
  - by rewrite (setup_collection_rejected _ _ _ message).
Qed.

Lemma setup_collection_calls_db db c r q :
  q ∈ calls (trace (setup_collection db c r)) -> request_db q = db.
Proof.
  rewrite setup_collection_calls.
  destruct (env_missing (coll_id c)); [by intros ?%elem_of_nil|].
  destruct (respond r _).2; [|by intros ->%list_elem_of_singleton].
  rewrite elem_of_cons, elem_of_app. intros [->|[Hin|Hin]]; [done| |].
  - apply list_elem_of_omap in Hin as (a & _ & Ha).
    unfold attribute_request in Ha.
    repeat match type of Ha with
           | (if ?b then _ else _) = _ => destruct b
           end; by inversion Ha.
  - by apply list_elem_of_fmap in Hin as (i & -> & _).
Qed.

Lemma setup_collections_calls_db db cs r q :
  q ∈ calls (trace (setup_collections db cs r)) -> request_db q = db.
Proof.
  revert r. induction cs as [|c cs IH]; intros r.
  { by intros ?%elem_of_nil. }
  rewrite setup_collections_cons. cbn [trace]. rewrite calls_app.
  rewrite elem_of_app. intros [Hin|Hin].
  - by eapply setup_collection_calls_db.
  - by eapply IH.
Qed.
End Requests.

Lemma configured_id_not_empty (c : collection) (id : string) :
  configured_id c = Some id -> id <> "".
Proof.
  unfold configured_id, env_missing, env_text.
  destruct (coll_id c) as [s|]; [|done].
  destruct (String.eqb_spec s ""); [done|]. by intros [= <-].
Qed.

(** X5.  The requests made for a collection depend on the lookup alone:
    none when the identifier is missing or empty, the lookup only when it
    is rejected, and otherwise the lookup, the request of every attribute
    of a handled kind and the request of every index, in this order,
    whatever the create calls answer.  So two services whose lookups
    agree get the same requests. *)
Theorem collection_requests_depend_on_lookup
    {R : Type} `{!Databases R} {R' : Type} `{!Databases R'}
    (db : env_value) (c : collection) (r : R) (r' : R') :
  calls (trace (setup_collection db c r)) =
    (if env_missing (coll_id c) then []
     else
       match (respond r (GetCollection db (env_text (coll_id c)))).2 with
       | Resolved =>
           GetCollection db (env_text (coll_id c)) ::
           collection_attribute_requests db c ++
           collection_index_requests db c
       | Rejected _ => [GetCollection db (env_text (coll_id c))]
       end)
  /\ (((respond r (GetCollection db (env_text (coll_id c)))).2 = Resolved <->
       (respond r' (GetCollection db (env_text (coll_id c)))).2 = Resolved) ->
      calls (trace (setup_collection db c r)) =
      calls (trace (setup_collection db c r'))).
Proof.
  split; [apply setup_collection_calls|].
  intros Hiff. rewrite !setup_collection_calls.
  destruct (env_missing (coll_id c)); [done|].
  destruct (respond r _).2 as [|message] eqn:Hq,
           (respond r' _).2 as [|message'] eqn:Hq'; try done.
  - by pose proof (proj1 Hiff eq_refl).
  - by pose proof (proj2 Hiff eq_refl).
Qed.

Lemma collection_requests_depend_on_lookup_witness :
  let c := {| coll_id := Some "tags"; coll_name := "unique()";
              coll_attributes := tags_attributes;
              coll_indexes := Some tags_indexes |} in
  calls (trace (setup_collection (Some "arbantv") c
                  [Resolved; Rejected "Server Error"; Resolved;
                   Rejected "Index already exists"])) =
  calls (trace (setup_collection (Some "arbantv") c tt)).
Proof.
  intros c.
  exact (proj2 (collection_requests_depend_on_lookup
                  (Databases0:=scripted) (Databases1:=obliging)
                  (Some "arbantv") c
                  [Resolved; Rejected "Server Error"; Resolved;
                   Rejected "Index already exists"] tt)
           (conj (fun _ => eq_refl) (fun _ => eq_refl))).
Defined.

(** X6.  Every request of a run is addressed to the configured database
    and to the identifier, never empty, that is configured for one of the
    descriptors. *)
Theorem requests_are_addressed
    {R : Type} `{!Databases R} (db : env_value) (cs : list collection) (r : R) :
  Forall (fun q =>
    request_db q = db /\ request_collection q <> "" /\
    request_collection q ∈ omap configured_id cs)
    (calls (trace (run_with db cs r))).
Proof.
  rewrite run_with_calls. apply Forall_forall. intros q Hq.
  pose proof (setup_collections_addressed db cs r q Hq) as Hid.
  split; [by eapply setup_collections_calls_db|]. split; [|done].
  apply list_elem_of_omap in Hid as (c & _ & Hc).
  by eapply configured_id_not_empty.
Qed.

(** ** A collection without indexes *)

(** X7.  A collection that was found and has no index descriptors (the
    list is empty or absent) still waits 3000 ms after its attributes; the
    header of the index loop is not logged and the wait ends the
    collection. *)
Theorem collection_without_indexes_still_waits
    {R : Type} `{!Databases R} (db : env_value) (c : collection) (r : R) :
  env_missing (coll_id c) = false ->
  (respond r (GetCollection db (env_text (coll_id c)))).2 = Resolved ->
  default [] (coll_indexes c) = [] ->
  let cid := env_text (coll_id c) in
  let x := for_of (coll_attributes c) (create_attribute db cid)
             (respond r (GetCollection db cid)).1 in
  setup_collection db c r =
  Result
    ([ Log (log_collection c); Call (GetCollection db cid);
       Log (log_collection_found c); Log (log_process c) ] ++
     trace x ++ [Log log_wait; Delay 3000])
    (remote x) (Returned tt)
  /\ (coll_attributes c = [] ->
      trace (setup_collection db c r) =
      [ Log (log_collection c); Call (GetCollection db cid);
        Log (log_collection_found c); Log (log_process c);
        Log log_wait; Delay 3000 ]).
Proof.
  intros Hid Hq Hnone cid x.
  assert (Hy : create_indexes db cid c (remote x) =
               Result [] (remote x) (Returned tt)).
  { unfold create_indexes. by destruct (coll_indexes c) as [[|i l]|]. }
  assert (Hc : setup_collection db c r =
               Result
                 ([ Log (log_collection c); Call (GetCollection db cid);
                    Log (log_collection_found c); Log (log_process c) ] ++
                  trace x ++ [Log log_wait; Delay 3000])
                 (remote x) (Returned tt)).
  { rewrite setup_collection_found by done. fold cid. fold x.
    rewrite Hy. cbn [trace remote]. by rewrite app_nil_r. }
  split; [exact Hc|]. intros Hattrs. rewrite Hc. cbn [trace].
  unfold x. rewrite Hattrs. reflexivity.
Qed.

Lemma collection_without_indexes_still_waits_witness :
  let c := {| coll_id := Some "tags"; coll_name := "unique()";
              coll_attributes := tags_attributes;
              coll_indexes := Some [] |} in
  default [] (coll_indexes c) = [] /\
  delays (trace (setup_collection (Some "arbantv") c tt)) = [100; 100; 3000].
Proof.
  intros c. split; [reflexivity|].
  rewrite (proj1 (collection_without_indexes_still_waits
                    (Databases0:=obliging) (Some "arbantv") c tt
                    eq_refl eq_refl eq_refl)).
  reflexivity.
Defined.

(** ** How long a run waits *)

Lemma total_delay_app (t1 t2 : list event) :
  total_delay (t1 ++ t2) = total_delay t1 + total_delay t2.
Proof.
  unfold total_delay. rewrite delays_app.
  induction (delays t1) as [|d l IH]; cbn [app foldr]; lia.
Qed.

Section Waiting.
Context {R : Type} `{!Databases R}.
Implicit Types (r : R) (db : env_value) (cid : string) (c : collection)
  (cs : list collection).

Lemma attributes_loop_delay db cid (l : list attribute) r :
  0 <= total_delay (trace (for_of l (create_attribute db cid) r))
    <= 100 * Z.of_nat (length l).
Proof.
  revert r. induction l as [|a l IH]; intros r; [done|].
  rewrite for_of_cons by apply create_attribute_returns. cbn [trace].
  rewrite total_delay_app. specialize (IH (remote (create_attribute db cid a r))).
  cbn [length]. rewrite Nat2Z.inj_succ.
  destruct (create_attribute_step db cid a r); cbn in *; lia.
Qed.

Lemma index_loop_delay db cid (l : list index) r :
  0 <= total_delay (trace (for_of l (create_index db cid) r))
    <= 200 * Z.of_nat (length l).
Proof.
  revert r. induction l as [|i l IH]; intros r; [done|].
  rewrite for_of_cons by apply create_index_returns. cbn [trace].
  rewrite total_delay_app. specialize (IH (remote (create_index db cid i r))).
  cbn [length]. rewrite Nat2Z.inj_succ.
  destruct (create_index_step db cid i r); cbn in *; lia.
Qed.

Lemma create_indexes_delay db cid c r :
  0 <= total_delay (trace (create_indexes db cid c r))
    <= 200 * Z.of_nat (length (default [] (coll_indexes c))).
Proof.
  unfold create_indexes. destruct (coll_indexes c) as [[|i l]|]; try done.
  rewrite (bind_returned (console_log _) _ r tt) by reflexivity.
  cbn [emit console_log trace remote default].
  change (Log ?line :: ?t) with ([Log line] ++ t). rewrite total_delay_app.
  pose proof (index_loop_delay db cid (i :: l) r). cbn in *. lia.
Qed.

Lemma setup_collection_delay db c r :
  0 <= total_delay (trace (setup_collection db c r)) <= delay_budget c.
Proof.
  unfold delay_budget.
  destruct (env_missing (coll_id c)) eqn:Hid.
  { rewrite setup_collection_unconfigured by done. cbn. lia. }
  destruct (respond r (GetCollection db (env_text (coll_id c)))).2
    as [|message] eqn:Hq.
  - rewrite setup_collection_found by done. cbn [trace].
    rewrite !total_delay_app.
    pose proof (attributes_loop_delay db (env_text (coll_id c))
                  (coll_attributes c)
                  (respond r (GetCollection db (env_text (coll_id c)))).1).
    pose proof (create_indexes_delay db (env_text (coll_id c)) c
                  (remote (for_of (coll_attributes c)
                     (create_attribute db (env_text (coll_id c)))
                     (respond r
                        (GetCollection db (env_text (coll_id c)))).1))).
    change (total_delay [Log log_wait; Delay 3000]) with 3000.
    change (total_delay [Log _; Call _; Log _; Log _]) with 0. lia.
  - rewrite (setup_collection_rejected _ _ _ message) by done. cbn. lia.
Qed.

Lemma setup_collections_delay db cs r :
  0 <= total_delay (trace (setup_collections db cs r))
    <= foldr (fun c n => delay_budget c + n) 0 cs.
Proof.
  revert r. induction cs as [|c cs IH]; intros r; [done|].
  rewrite setup_collections_cons. cbn [trace foldr].
  rewrite total_delay_app.
  pose proof (setup_collection_delay db c r).
  specialize (IH (remote (setup_collection db c r))). lia.
Qed.

Lemma run_with_delay db cs r :
  total_delay (trace (run_with db cs r)) =
  total_delay (trace (setup_collections db cs r)).
Proof.
  rewrite run_with_eq. cbn [trace].
  change (Log ?l :: ?t) with ([Log l] ++ t).
  rewrite !total_delay_app. cbn. lia.
Qed.
End Waiting.

(** X8.  Whatever the service answers, the time a run spends waiting is at
    most 100 ms per attribute descriptor, 3000 ms per collection and
    200 ms per index descriptor; for the declared schema this is at most
    16400 ms. *)
Theorem waiting_time_is_bounded
    {R : Type} `{!Databases R} (db : env_value) (cs : list collection)
    (env : process_env) (ID_unique : nat -> string) (r : R) :
  0 <= total_delay (trace (run_with db cs r))
    <= foldr (fun c n => delay_budget c + n) 0 cs
  /\ total_delay (trace (main env ID_unique r)) <= 16400.
Proof.
  split.
  - rewrite run_with_delay. apply setup_collections_delay.
  - rewrite main_run_with, run_with_delay.
    pose proof (setup_collections_delay (APPWRITE_DATABASE_ID env)
                  (collections env ID_unique) r) as H.
    change (foldr (fun c n => delay_budget c + n) 0
              (collections env ID_unique)) with 16400 in H. lia.
Qed.

Section Created.
Context {R : Type} `{!Databases R}.
Hypothesis resolves : forall (r : R) q, (respond r q).2 = Resolved.
Implicit Types (r : R) (db : env_value) (cid : string) (c : collection)
  (cs : list collection).

Lemma attributes_loop_delay_created db cid (l : list attribute) r :
  total_delay (trace (for_of l (create_attribute db cid) r)) =
  100 * Z.of_nat (length (omap (attribute_request db cid) l)).
Proof.
  revert r. induction l as [|a l IH]; intros r; [done|].
  rewrite for_of_cons by apply create_attribute_returns. cbn [trace].
  rewrite total_delay_app, IH. cbn [omap list_omap].
  destruct (create_attribute_step db cid a r)
    as [Ha|q Ha Hq|q message Ha Hq Hm|q message Ha Hq Hm]; rewrite Ha;
    try (rewrite resolves in Hq; discriminate Hq); cbn [length trace].
  - change (total_delay [Log _]) with 0. lia.
  - change (total_delay [Call _; Log _; Delay 100]) with 100.
    rewrite Nat2Z.inj_succ. lia.
Qed.

Lemma index_loop_delay_created db cid (l : list index) r :
  total_delay (trace (for_of l (create_index db cid) r)) =
  200 * Z.of_nat (length l).
Proof.
  revert r. induction l as [|i l IH]; intros r; [done|].
  rewrite for_of_cons by apply create_index_returns. cbn [trace].
  rewrite total_delay_app, IH. cbn [length]. rewrite Nat2Z.inj_succ.
  destruct (create_index_step db cid i r)
    as [Hq|message Hq Hm|message Hq Hm];
    try (rewrite resolves in Hq; discriminate Hq).
  cbn [trace]. change (total_delay [Call _; Log _; Delay 200]) with 200. lia.
Qed.

Lemma create_indexes_delay_created db cid c r :
  total_delay (trace (create_indexes db cid c r)) =
  200 * Z.of_nat (length (default [] (coll_indexes c))).
Proof.
  unfold create_indexes. destruct (coll_indexes c) as [[|i l]|]; try done.
  rewrite (bind_returned (console_log _) _ r tt) by reflexivity.
  cbn [emit console_log trace remote default].
  change (Log ?line :: ?t) with ([Log line] ++ t).
  rewrite total_delay_app, index_loop_delay_created.
  change (total_delay ([Log (log_index c)] ++ [])) with 0.
  cbn [from_option id length]. lia.
Qed.

Lemma setup_collection_delay_created db c r :
  env_missing (coll_id c) = false ->
  total_delay (trace (setup_collection db c r)) = delay_when_created db c.
Proof.
  intros Hid. rewrite setup_collection_found by done. cbn [trace].
  rewrite !total_delay_app, attributes_loop_delay_created.
  rewrite create_indexes_delay_created.
  unfold delay_when_created, collection_attribute_requests,
    collection_index_requests. rewrite length_fmap.
  change (total_delay [Log log_wait; Delay 3000]) with 3000.
  change (total_delay [Log _; Call _; Log _; Log _]) with 0. lia.
Qed.

Lemma setup_collections_delay_created db cs r :
  Forall (fun c => env_missing (coll_id c) = false) cs ->
  total_delay (trace (setup_collections db cs r)) =
  foldr (fun c n => delay_when_created db c + n) 0 cs.
Proof.
  intros Hids. revert r. induction Hids as [|c cs Hid _ IH]; intros r; [done|].
  rewrite setup_collections_cons. cbn [trace foldr].
  by rewrite total_delay_app, IH, setup_collection_delay_created.
Qed.
End Created.

(** X9.  When every identifier is configured and the service resolves
    every request, a run waits exactly 100 ms for each attribute of a
    handled kind, 3000 ms for each collection and 200 ms for each index. *)
Theorem waiting_time_when_all_created
    {R : Type} `{!Databases R} (db : env_value) (cs : list collection) (r : R) :
  (forall (r' : R) q, (respond r' q).2 = Resolved) ->
  Forall (fun c => env_missing (coll_id c) = false) cs ->
  total_delay (trace (run_with db cs r)) =
  foldr (fun c n => delay_when_created db c + n) 0 cs.
Proof.
  intros Hok Hids. rewrite run_with_delay.
  by apply setup_collections_delay_created.
Qed.

Lemma waiting_time_when_all_created_witness :
  (forall (r' : unit) q, (respond r' q).2 = Resolved) /\
  total_delay
    (trace (run_with (Some "arbantv") (collections test_env test_unique) tt)) =
  16400.
Proof.
  split; [reflexivity|].
  rewrite (waiting_time_when_all_created (Databases0:=obliging)
             (Some "arbantv") (collections test_env test_unique) tt
             (fun _ _ => eq_refl)); [reflexivity|].
  repeat constructor.
Defined.

(** ** The substring test *)

Lemma prefix_spec (q s : string) :
  String.prefix q s = true <-> exists post, s = q +:+ post.
Proof.
  revert s. induction q as [|c q IH]; intros s.
  - split; [intros _; by exists s|by destruct s].
  - destruct s as [|c' s].
    + split; [discriminate|]. intros [post Hpost]. discriminate Hpost.
    + change (String.prefix (String c q) (String c' s))
        with (if ascii_dec c c' then String.prefix q s else false).
      destruct (ascii_dec c c') as [->|Hne].
      * rewrite IH. split.
        -- intros [post ->]. by exists post.
        -- intros [post Hpost]. exists post.
           change (String c' q +:+ post) with (String c' (q +:+ post))
             in Hpost.
           by injection Hpost.
      * split; [discriminate|]. intros [post Hpost].
        change (String c q +:+ post) with (String c (q +:+ post)) in Hpost.
        injection Hpost as Hc _. congruence.
Qed.

(** X10.  The test [s.includes(q)] that classifies the error messages holds
    exactly when [q] occurs in [s] as a substring; it is sensitive to
    case, and every string includes the empty string. *)
Theorem includes_is_substring (s q : string) :
  (includes s q = true <-> exists pre post, s = pre +:+ q +:+ post)
  /\ includes s "" = true
  /\ includes "Attribute Already Exists" "already exists" = false.
Proof.
  split; [|split; [by destruct s|reflexivity]]. split.
  - induction s as [|c s IH]; cbn [includes]; intros H;
      apply orb_true_iff in H as [H|H].
    + apply prefix_spec in H as [post ->]. by exists "", post.
    + discriminate.
    + apply prefix_spec in H as [post ->]. by exists "", post.
    + destruct (IH H) as (pre & post & ->). by exists (String c pre), post.
  - intros (pre & post & ->). induction pre as [|c pre IH].
    + apply prefix_includes. apply prefix_spec. by exists post.
    + change (includes (String c pre +:+ q +:+ post) q)
        with (String.prefix q (String c (pre +:+ q +:+ post)) ||
              includes (pre +:+ q +:+ post) q).
      rewrite IH. apply orb_true_r.
Qed.

(** ** Arguments of the create-attribute calls *)

Lemma js_or_null (a : jsval) :
  js_or a JNull = JNull \/ truthy (js_or a JNull) = true.
Proof. unfold js_or. destruct (truthy a) eqn:Ha; auto. Qed.

Lemma js_or_false (a : jsval) :
  js_or a (JBool false) = JBool false \/
  truthy (js_or a (JBool false)) = true.
Proof. unfold js_or. destruct (truthy a) eqn:Ha; auto. Qed.

(** X11.  In every create-attribute call the key and the [required] flag
    are those of the descriptor; the default is the descriptor's when
    truthy and [null] otherwise; a call for an integer or a double carries
    as bounds the descriptor's [min] and then its [max], each when truthy
    and [null] otherwise, and the other kinds carry no bounds; the array
    flag is the descriptor's when truthy and [false] otherwise.  So none
    of the optional arguments is ever [undefined], [0] or the empty
    string. *)
Theorem optional_arguments_are_normalised
    (db : env_value) (cid : string) (a : attribute) (q : request) :
  attribute_request db cid a = Some q ->
  request_key q = attr_key a
  /\ request_required q = Some (attr_required a)
  /\ request_default q =
     Some (if truthy (attr_default a) then attr_default a else JNull)
  /\ request_array q =
     Some (if truthy (attr_array a) then attr_array a else JBool false)
  /\ Forall (fun v => v = JNull \/ truthy v = true)
       (option_list (request_default q) ++ request_bounds q)
  /\ Forall (fun v => v = JBool false \/ truthy v = true)
       (option_list (request_array q))
  /\ request_bounds q =
     (if String.eqb (attr_type a) "integer" ||
         String.eqb (attr_type a) "double"
      then [ if truthy (attr_min a) then attr_min a else JNull;
             if truthy (attr_max a) then attr_max a else JNull ]
      else []).
Proof.
  unfold attribute_request.
  destruct a as [key type size required min max default array].
  cbn [attr_key attr_type attr_size attr_required attr_min attr_max
       attr_default attr_array].
  destruct (String.eqb_spec type "string") as [->|_]; [|
  destruct (String.eqb_spec type "integer") as [->|_]; [|
  destruct (String.eqb_spec type "double") as [->|_]; [|
  destruct (String.eqb_spec type "boolean") as [->|_]; [|
  destruct (String.eqb_spec type "datetime") as [->|_]; [|
  discriminate]]]]];
    intros Hq; inversion Hq; subst;
    cbn [request_key request_required request_default request_array
         request_bounds option_list app String.eqb Ascii.eqb Bool.eqb orb];
    (split; [reflexivity|]); (split; [reflexivity|]);
    (split; [reflexivity|]); (split; [reflexivity|]);
    (split;
     [repeat (apply Forall_cons; split;
                [first [apply js_or_null | apply js_or_false]|]);
      apply Forall_nil_2|]);
    (split;
     [repeat (apply Forall_cons; split;
                [first [apply js_or_null | apply js_or_false]|]);
      apply Forall_nil_2|]);
    reflexivity.
Qed.

Lemma optional_arguments_are_normalised_witness :
  let count := attr "count" "integer" JUndefined (JBool true) (JNum 0)
                 JUndefined in
  attribute_request (Some "arbantv") "tags" count =
  Some (CreateIntegerAttribute (Some "arbantv") "tags" "count" (JBool true)
          JNull JNull JNull (JBool false))
  /\ request_default
       (CreateIntegerAttribute (Some "arbantv") "tags" "count" (JBool true)
          JNull JNull JNull (JBool false)) =
     Some (if truthy (attr_default count) then attr_default count else JNull).
Proof.
  intros count. split; [reflexivity|].
  exact (proj1 (proj2 (proj2
           (optional_arguments_are_normalised (Some "arbantv") "tags" count _
              eq_refl)))).
Defined.

(** ** The declared schema *)

(** X12.  Whatever the environment, each of the four declared collections
    is well formed: its attribute keys are pairwise distinct, its index
    keys are pairwise distinct, every index refers only to attribute keys
    declared in the same collection, and every attribute has one of the
    five handled kinds. *)
Theorem declared_schema_is_well_formed
    (env : process_env) (ID_unique : nat -> string) :
  Forall well_formed (collections env ID_unique).
Proof.
  repeat (apply Forall_cons; split;
            [unfold well_formed;
             repeat split; apply (bool_decide_unpack _); vm_compute; exact I
            |]).
  apply Forall_nil_2.
Qed.

(** ** The lookups of a run *)

Lemma lookup_calls_app (t1 t2 : list event) :
  lookup_calls (t1 ++ t2) = lookup_calls t1 ++ lookup_calls t2.
Proof. unfold lookup_calls. rewrite calls_app. apply filter_app. Qed.

Lemma filter_lookups_none (l : list request) :
  Forall (fun q => is_lookup q = false) l ->
  filter (fun q => is_lookup q = true) l = [].
Proof.
  induction 1 as [|q l Hq _ IH]; [done|].
  rewrite filter_cons_False by congruence. exact IH.
Qed.

Lemma create_requests_hold_no_lookup (db : env_value) (c : collection) :
  filter (fun q => is_lookup q = true)
    (collection_attribute_requests db c ++ collection_index_requests db c)
  = [].
Proof.
  apply filter_lookups_none, Forall_forall. intros q Hq.
  apply elem_of_app in Hq as [Hq|Hq].
  - apply list_elem_of_omap in Hq as (a & _ & Ha).
    destruct (attribute_request_is_create _ _ _ _ Ha) as (Hc & _).
    by destruct q.
  - by apply list_elem_of_fmap in Hq as (i & -> & _).
Qed.

Section Lookups.
Context {R : Type} `{!Databases R}.
Implicit Types (r : R) (db : env_value) (c : collection)
  (cs : list collection).

Lemma setup_collection_lookups db c r :
  lookup_calls (trace (setup_collection db c r)) =
  option_list (GetCollection db <$> configured_id c).
Proof.
  unfold lookup_calls, configured_id. rewrite setup_collection_calls.
  destruct (env_missing (coll_id c)); [done|].
  destruct (respond r _).2; [|done].
  rewrite filter_cons_True by done.
  by rewrite create_requests_hold_no_lookup.
Qed.

Lemma setup_collections_lookups db cs r :
  lookup_calls (trace (setup_collections db cs r)) =
  GetCollection db <$> omap configured_id cs.
Proof.
  revert r. induction cs as [|c cs IH]; intros r; [done|].
  rewrite setup_collections_cons. cbn [trace omap list_omap].
  rewrite lookup_calls_app, IH, setup_collection_lookups.
  by destruct (configured_id c).
Qed.
End Lookups.

(** X13.  Whatever the service answers, a run looks up every collection
    that has an identifier exactly once, in the order of the descriptors,
    and looks up nothing else: a failure in one collection never keeps a
    later one from being looked up. *)
Theorem every_configured_collection_is_looked_up
    {R : Type} `{!Databases R} (db : env_value) (cs : list collection) (r : R) :
  lookup_calls (trace (run_with db cs r)) =
  GetCollection db <$> omap configured_id cs.
Proof.
  unfold lookup_calls. rewrite run_with_calls.
  apply setup_collections_lookups.
Qed.
